(** * ProductTree: search index builder and client-side search

    A shallow embedding of the two pieces of the documentation site that carry
    logic: the build-time index route ([search-index.json]), which maps the
    content collection to a list of search records, and the script of the
    search box component, which loads that index into Fuse.js and answers
    keystrokes.

    JavaScript strings are sequences of UTF-16 code units; they are modelled as
    lists of numbers.  Case conversion is exact on ASCII text; on text with
    other code units it is delegated to the host's Unicode tables, which are
    parameters of the development, as is [Date.prototype.toISOString]. *)

From Stdlib Require Import List NArith ZArith QArith String Ascii Bool Arith Lia.
From Stdlib Require Import DecimalString DecimalNat.
Import ListNotations.

Set Implicit Arguments.

Close Scope Q_scope.
Open Scope N_scope.
Open Scope nat_scope.

(* ================================================================== *)
(** ** JavaScript strings                                              *)
(* ================================================================== *)

Definition codeunit := N.
Definition jsstring := list codeunit.

(** A string literal of the source, as code units. *)
Definition lit (s : string) : jsstring := map N_of_ascii (list_ascii_of_string s).

Definition inRange (lo hi c : codeunit) : bool := ((lo <=? c) && (c <=? hi))%N.

Definition isUpperAZ (c : codeunit) : bool := inRange 65%N 90%N c.
Definition isLowerAZ (c : codeunit) : bool := inRange 97%N 122%N c.
Definition isDigit (c : codeunit) : bool := inRange 48%N 57%N c.

(** The character class [[a-zA-Z]]. *)
Definition isLetter (c : codeunit) : bool := isLowerAZ c || isUpperAZ c.

(** The class [\w] of a regular expression without the [u] and [i] flags. *)
Definition isWordChar (c : codeunit) : bool :=
  isLetter c || isDigit c || (c =? 95)%N.

(** The character class [[#*`]]. *)
Definition isMarkup (c : codeunit) : bool :=
  ((c =? 35) || (c =? 42) || (c =? 96))%N.

(** WhiteSpace and LineTerminator of ECMAScript, the code units that
    [String.prototype.trim] strips. *)
Definition isWhiteSpace (c : codeunit) : bool :=
  ((c =? 9) || (c =? 10) || (c =? 11) || (c =? 12) || (c =? 13) || (c =? 32)
   || (c =? 160) || (c =? 5760) || inRange 8192 8202 c
   || (c =? 8232) || (c =? 8233) || (c =? 8239) || (c =? 8287)
   || (c =? 12288) || (c =? 65279))%N.

(** [s.slice(0, n)] and [s.slice(1)]. *)
Definition slice0 (n : nat) (s : jsstring) : jsstring := firstn n s.
Definition sliceFrom1 (s : jsstring) : jsstring := tl s.

(** [s.charAt(0)]: the first code unit as a string, or the empty string. *)
Definition charAt0 (s : jsstring) : jsstring :=
  match s with
  | [] => []
  | c :: _ => [c]
  end.

(** [s.replace(/[...]/g, '')] for a character class. *)
Definition removeClass (cls : codeunit -> bool) (s : jsstring) : jsstring :=
  filter (fun c => negb (cls c)) s.

Fixpoint trimStart (s : jsstring) : jsstring :=
  match s with
  | [] => []
  | c :: r => if isWhiteSpace c then trimStart r else s
  end.

Definition trimEnd (s : jsstring) : jsstring := rev (trimStart (rev s)).

Definition trim (s : jsstring) : jsstring := trimEnd (trimStart s).

(** Cutting a string at the code units that satisfy [isSep]: the piece before
    the first of them, and the pieces after each. *)
Fixpoint splitWhen (isSep : codeunit -> bool) (s : jsstring) : jsstring * list jsstring :=
  match s with
  | [] => ([], [])
  | c :: r =>
      let (w, ws) := splitWhen isSep r in
      if isSep c then ([], w :: ws) else (c :: w, ws)
  end.

Definition pieces (isSep : codeunit -> bool) (s : jsstring) : list jsstring :=
  let (w, ws) := splitWhen isSep s in w :: ws.

(** [s.split(sep)] for a separator of one code unit; the result always has at
    least one element. *)
Definition split (sep : codeunit) (s : jsstring) : list jsstring :=
  pieces (fun c => (c =? sep)%N) s.

(** [parts.join(sep)]. *)
Fixpoint join (sep : jsstring) (parts : list jsstring) : jsstring :=
  match parts with
  | [] => []
  | [p] => p
  | p :: ps => p ++ sep ++ join sep ps
  end.

(** A string is falsy exactly when it is empty. *)
Definition truthy (s : jsstring) : bool :=
  match s with
  | [] => false
  | _ :: _ => true
  end.

(** [a || b] where [a] is a string or [undefined]. *)
Definition strOr (a : option jsstring) (b : jsstring) : jsstring :=
  match a with
  | Some s => if truthy s then s else b
  | None => b
  end.

Definition isAscii (c : codeunit) : bool := (c <? 128)%N.

Definition asciiUpper (c : codeunit) : codeunit :=
  if isLowerAZ c then (c - 32)%N else c.

Definition asciiLower (c : codeunit) : codeunit :=
  if isUpperAZ c then (c + 32)%N else c.

(* ================================================================== *)
(** ** Regular expressions                                             *)
(* ================================================================== *)

(** The fragment of the pattern language the source uses: the assertion [\b]
    and a greedy [C{min,}] over a character class.  A pattern is a sequence of
    these; matching is the backtracking semantics of the language, written
    with continuations.  A position in the input is the code unit before it
    (if any) and the input that remains; [n] counts the units consumed. *)

Inductive Atom : Type :=
| WordBoundary
| AtLeast (min : nat) (cls : codeunit -> bool).

Definition Regex := list Atom.

Definition Cont := option codeunit -> jsstring -> nat -> option nat.

Definition isWordAt (c : option codeunit) : bool :=
  match c with
  | Some u => isWordChar u
  | None => false
  end.

Definition atWordBoundary (prev : option codeunit) (rest : jsstring) : bool :=
  xorb (isWordAt prev) (isWordAt (hd_error rest)).

Fixpoint repGreedy (cls : codeunit -> bool) (min : nat)
    (prev : option codeunit) (rest : jsstring) (n : nat) (k : Cont) : option nat :=
  let stop := match min with O => k prev rest n | S _ => None end in
  match rest with
  | [] => stop
  | c :: rest' =>
      if cls c then
        match repGreedy cls (pred min) (Some c) rest' (S n) k with
        | Some e => Some e
        | None => stop
        end
      else stop
  end.

Fixpoint matchAtoms (r : Regex) (k : Cont) : Cont :=
  match r with
  | [] => k
  | WordBoundary :: r' =>
      fun prev rest n =>
        if atWordBoundary prev rest then matchAtoms r' k prev rest n else None
  | AtLeast min cls :: r' =>
      fun prev rest n => repGreedy cls min prev rest n (matchAtoms r' k)
  end.

(** One attempt at the current position: the length of the match. *)
Definition execAt (r : Regex) (prev : option codeunit) (rest : jsstring) : option nat :=
  matchAtoms r (fun _ _ n => Some n) prev rest 0.

(** All matches of a global pattern, left to right.  [skip] is the distance
    from the current position to [lastIndex]; after an empty match
    [lastIndex] is advanced by one. *)
Fixpoint matchAllFrom (r : Regex) (skip : nat) (prev : option codeunit)
    (s : jsstring) : list jsstring :=
  match s with
  | [] =>
      match skip, execAt r prev [] with
      | O, Some _ => [[]]
      | _, _ => []
      end
  | c :: s' =>
      match skip with
      | S k => matchAllFrom r k (Some c) s'
      | O =>
          match execAt r prev s with
          | Some n => firstn n s :: matchAllFrom r (pred n) (Some c) s'
          | None => matchAllFrom r 0 (Some c) s'
          end
      end
  end.

(** [s.match(r)] for a global [r]: the matches, or [null] when there is none. *)
Definition matchGlobal (r : Regex) (s : jsstring) : option (list jsstring) :=
  match matchAllFrom r 0 None s with
  | [] => None
  | ms => Some ms
  end.

(** [/\b[a-zA-Z]{3,}\b/g] *)
Definition wordPattern : Regex := [WordBoundary; AtLeast 3 isLetter; WordBoundary].

(** What follows the letters of [wordPattern]: a boundary, then the end. *)
Definition boundaryThenEnd : Cont :=
  matchAtoms [WordBoundary] (fun _ _ n => Some n).

Definition nonWord (c : codeunit) : bool := negb (isWordChar c).

(* ================================================================== *)
(** ** The content collection                                          *)
(* ================================================================== *)

(** The schema of [src/content/config.ts]. *)
Inductive Category : Type := development | automation | support.

(** A [Date] with a finite time value, in milliseconds since the epoch (the
    schema's [z.date()] admits no other). *)
Definition Date := Z.

Record DocData : Type := {
  title : jsstring;
  description : option jsstring;
  app : jsstring;
  category : Category;
  order : option Q;
  lastUpdated : option Date;
  tags : option (list jsstring)
}.

(** An entry of the collection as [getCollection('docs')] returns it. *)
Record Doc : Type := {
  slug : jsstring;
  body : option jsstring;
  data : DocData
}.

Definition categoryName (c : Category) : jsstring :=
  match c with
  | development => lit "development"
  | automation => lit "automation"
  | support => lit "support"
  end.

(* ================================================================== *)
(** ** Values and JSON                                                 *)
(* ================================================================== *)

(** The values that occur as properties of a search record, an object literal
    as the ordered list of its properties, and the document
    [JSON.stringify] writes. *)
Inductive Value : Type :=
| VNull
| VStr (s : jsstring)
| VDate (d : Date)
| VStrs (xs : list jsstring).

Definition Obj := list (string * Value).

#[warnings="-register-all"] Inductive Json : Type :=
| JNull
| JStr (s : jsstring)
| JArr (xs : list Json)
| JObj (props : list (string * Json)).

Definition keysOf (j : Json) : list string :=
  match j with
  | JObj props => map fst props
  | _ => []
  end.

Fixpoint assoc {A : Type} (k : string) (props : list (string * A)) : option A :=
  match props with
  | [] => None
  | (k', v) :: r => if String.eqb k k' then Some v else assoc k r
  end.

Definition getProp (k : string) (j : Json) : option Json :=
  match j with
  | JObj props => assoc k props
  | _ => None
  end.

(* ================================================================== *)
(** ** The index route                                                 *)
(* ================================================================== *)

Section IndexBuilder.

(** The host's case conversions on text that is not all ASCII, and
    [Date.prototype.toISOString]. *)
Variable unicodeUpper : jsstring -> jsstring.
Variable unicodeLower : jsstring -> jsstring.
Variable toISOString : Date -> jsstring.

Definition toUpperCase (s : jsstring) : jsstring :=
  if forallb isAscii s then map asciiUpper s else unicodeUpper s.

Definition toLowerCase (s : jsstring) : jsstring :=
  if forallb isAscii s then map asciiLower s else unicodeLower s.

(** [content.slice(0, 200).replace(/[#*`]/g, '').trim() + '...'] *)
Definition excerptOf (content : jsstring) : jsstring :=
  trim (removeClass isMarkup (slice0 200 content)) ++ lit "...".

(** [word => word.charAt(0).toUpperCase() + word.slice(1)] *)
Definition capitalize (word : jsstring) : jsstring :=
  toUpperCase (charAt0 word) ++ sliceFrom1 word.

(** [app.split('-').map(...).join(' ')] *)
Definition appNameOf (app : jsstring) : jsstring :=
  join (lit " ") (map capitalize (split 45%N app)).

(** [const [app] = doc.slug.split('/')] *)
Definition appSegment (slug : jsstring) : jsstring :=
  hd [] (split 47%N slug).

(** [content.toLowerCase().match(/\b[a-zA-Z]{3,}\b/g)?.slice(0, 50).join(' ') || ''] *)
Definition contentKeywords (content : jsstring) : jsstring :=
  strOr (option_map (fun ms => join (lit " ") (firstn 50 ms))
                    (matchGlobal wordPattern (toLowerCase content)))
        [].

Definition contentOf (doc : Doc) : jsstring := strOr (body doc) [].

Definition tagsOf (doc : Doc) : list jsstring :=
  match tags (data doc) with
  | Some ts => ts
  | None => []
  end.

(** The callback of [docs.map] in [search-index.json.ts]. *)
Definition searchRecord (doc : Doc) : Obj :=
  let content := contentOf doc in
  let excerpt := excerptOf content in
  let appName := appNameOf (appSegment (slug doc)) in
  let contentKeywords := contentKeywords content in
  [ ("title", VStr (title (data doc)));
    ("description", VStr (strOr (description (data doc)) excerpt));
    ("url", VStr (lit "/" ++ slug doc)%list);
    ("app", VStr appName);
    ("category", VStr (categoryName (category (data doc))));
    ("tags", VStrs (tagsOf doc));
    ("content", VStr content);
    ("excerpt", VStr excerpt);
    ("keywords", VStr contentKeywords);
    ("lastUpdated", match lastUpdated (data doc) with
                    | Some d => VDate d
                    | None => VNull
                    end) ]%string.

(** The same callback in the variant of the route without keywords, which
    converts the date itself. *)
Definition searchRecordPlain (doc : Doc) : Obj :=
  let content := contentOf doc in
  let excerpt := excerptOf content in
  let appName := appNameOf (appSegment (slug doc)) in
  [ ("title", VStr (title (data doc)));
    ("description", VStr (strOr (description (data doc)) excerpt));
    ("url", VStr (lit "/" ++ slug doc)%list);
    ("app", VStr appName);
    ("category", VStr (categoryName (category (data doc))));
    ("tags", VStrs (tagsOf doc));
    ("content", VStr content);
    ("excerpt", VStr excerpt);
    ("lastUpdated", match option_map toISOString (lastUpdated (data doc)) with
                    | Some iso => if truthy iso then VStr iso else VNull
                    | None => VNull
                    end) ]%string.

Definition searchIndex (docs : list Doc) : list Obj := map searchRecord docs.
Definition searchIndexPlain (docs : list Doc) : list Obj := map searchRecordPlain docs.

(** [JSON.stringify]: a [Date] is written through [toJSON], that is as its
    ISO string; none of the other values is dropped or changed. *)
Definition toJson (v : Value) : Json :=
  match v with
  | VNull => JNull
  | VStr s => JStr s
  | VDate d => JStr (toISOString d)
  | VStrs xs => JArr (map JStr xs)
  end.

Definition stringifyRecord (o : Obj) : Json :=
  JObj (map (fun kv => (fst kv, toJson (snd kv))) o).

Definition stringify (index : list Obj) : Json :=
  JArr (map stringifyRecord index).

(** The body of the response of [GET], for either variant. *)
Definition artifact (docs : list Doc) : Json := stringify (searchIndex docs).
Definition artifactPlain (docs : list Doc) : Json := stringify (searchIndexPlain docs).

End IndexBuilder.

(* ================================================================== *)
(** ** The search box: Fuse.js, the page and its script                *)
(* ================================================================== *)

Module SearchBox.

(** *** Fuse.js, as far as the script uses it *)

Record FuseKey : Type := { name : string; weight : Q }.

Record FuseOptions : Type := {
  keys : list FuseKey;
  threshold : Q;
  includeScore : bool;
  includeMatches : bool;
  minMatchCharLength : nat
}.

(** An element of the array [fuse.search] returns. *)
Record FuseResult : Type := { item : Json; refIndex : nat; score : Q }.

(** An instance, with its method [search]. *)
Record FuseInstance : Type := { searchMethod : jsstring -> list FuseResult }.

(** The literal [options] of [initializeSearch].  The weights are decimal
    literals; they are kept as the rationals they denote, which compare as
    the doubles nearest to them do. *)
Definition options : FuseOptions :=
  {| keys := [ {| name := "title"; weight := 0.3%Q |};
               {| name := "tags"; weight := 0.25%Q |};
               {| name := "description"; weight := 0.2%Q |};
               {| name := "keywords"; weight := 0.1%Q |};
               {| name := "app"; weight := 0.1%Q |};
               {| name := "category"; weight := 0.05%Q |} ];
     threshold := 0.3%Q;
     includeScore := true;
     includeMatches := true;
     minMatchCharLength := 2 |}.

(** *** Exceptions and the environment of the initialisation *)

Inductive Exn : Type :=
| ImportFailed                 (* the dynamic import is rejected *)
| NetworkError                 (* [fetch] is rejected *)
| HttpError (status : N)       (* [new Error(`HTTP error! status: ...`)] *)
| SyntaxError                  (* [response.json()] is rejected *)
| TypeError                    (* a property of [null], or [new] on no constructor *)
| LibraryError.                (* thrown by the constructor of the library *)

Inductive Completion (A : Type) : Type :=
| Normal (a : A)
| Throw (e : Exn).
Arguments Normal {A} a.
Arguments Throw {A} e.

(** What [response.json()] is fulfilled with: any JSON value.  Of a value
    that is no array the script reads only the property [length], which
    throws on [null], is a number on a string and is [undefined] on a number,
    a boolean and an object. *)
Inductive Parsed : Type :=
| ParsedArray (records : list Json)
| ParsedNull
| ParsedOther (length : option nat).

(** [searchIndex.length] *)
Definition lengthOf (v : Parsed) : Completion (option nat) :=
  match v with
  | ParsedArray records => Normal (Some (List.length records))
  | ParsedNull => Throw TypeError
  | ParsedOther length => Normal length
  end.

(** The class, which is the default export of the module the script imports:
    [new Fuse(list, options)] gives an instance or throws. *)
Definition FuseClass := Parsed -> FuseOptions -> Completion FuseInstance.

(** A response of [fetch]; [response.ok] is a 2xx status. *)
Record Response : Type := { status : N; json : Completion Parsed }.

Definition ok (r : Response) : bool := inRange 200%N 299%N (status r).

(** How the promises that [initializeSearch] awaits settle. *)
Record InitEnv : Type := {
  importFuse : Completion FuseClass;
  fetchIndex : Completion Response
}.

(** *** The page *)

(** What the template literal of [displayResults] interpolates for one
    result; the excerpt block is present when [item.excerpt] is truthy. *)
Record Card : Type := {
  href : option Json;
  cardTitle : option Json;
  cardApp : option Json;
  cardExcerpt : option Json
}.

Inductive Html : Type :=
| InitialMarkup                (* the comment of the template *)
| NoResultsFound
| Cards (cs : list Card).

Inductive LogEntry : Type :=
| LogInitializing
| LogIndexLoaded (n : option nat)   (* [searchIndex.length], or [undefined] *)
| LogInitialized
| LogResults (query : jsstring) (results : list FuseResult)
| LogError (e : Exn).

(** A pending timer of [setTimeout]; the only callback the script schedules
    is [() => search(query)], kept as the [query] it has captured. *)
Record Timer : Type := { timerId : nat; due : N; pendingQuery : jsstring }.

Record Page : Type := mkPage {
  (* variables of the script *)
  Fuse : option FuseClass;
  searchIndex : Parsed;
  fuse : option FuseInstance;
  searchTimeout : option nat;
  (* the elements of the component; [None] when [getElementById] finds none *)
  inputValue : jsstring;
  inputFocused : bool;
  dropdownHidden : option bool;      (* [#search-results] has class [hidden] *)
  resultsContent : option Html;      (* [#search-results-content].innerHTML *)
  (* the host *)
  clock : N;
  timers : list Timer;
  nextTimerId : nat;
  (* what can be observed from outside *)
  console : list LogEntry;
  engineCalls : list jsstring;       (* the arguments of [fuse.search], in order *)
  uncaught : list Exn
}.

Definition setFuseClass v p := mkPage v (searchIndex p) (fuse p) (searchTimeout p) (inputValue p) (inputFocused p) (dropdownHidden p) (resultsContent p) (clock p) (timers p) (nextTimerId p) (console p) (engineCalls p) (uncaught p).
Definition setSearchIndex v p := mkPage (Fuse p) v (fuse p) (searchTimeout p) (inputValue p) (inputFocused p) (dropdownHidden p) (resultsContent p) (clock p) (timers p) (nextTimerId p) (console p) (engineCalls p) (uncaught p).
Definition setFuse v p := mkPage (Fuse p) (searchIndex p) v (searchTimeout p) (inputValue p) (inputFocused p) (dropdownHidden p) (resultsContent p) (clock p) (timers p) (nextTimerId p) (console p) (engineCalls p) (uncaught p).
Definition setSearchTimeout v p := mkPage (Fuse p) (searchIndex p) (fuse p) v (inputValue p) (inputFocused p) (dropdownHidden p) (resultsContent p) (clock p) (timers p) (nextTimerId p) (console p) (engineCalls p) (uncaught p).
Definition setInputValue v p := mkPage (Fuse p) (searchIndex p) (fuse p) (searchTimeout p) v (inputFocused p) (dropdownHidden p) (resultsContent p) (clock p) (timers p) (nextTimerId p) (console p) (engineCalls p) (uncaught p).
Definition setInputFocused v p := mkPage (Fuse p) (searchIndex p) (fuse p) (searchTimeout p) (inputValue p) v (dropdownHidden p) (resultsContent p) (clock p) (timers p) (nextTimerId p) (console p) (engineCalls p) (uncaught p).
Definition setDropdownHidden v p := mkPage (Fuse p) (searchIndex p) (fuse p) (searchTimeout p) (inputValue p) (inputFocused p) v (resultsContent p) (clock p) (timers p) (nextTimerId p) (console p) (engineCalls p) (uncaught p).
Definition setResultsContent v p := mkPage (Fuse p) (searchIndex p) (fuse p) (searchTimeout p) (inputValue p) (inputFocused p) (dropdownHidden p) v (clock p) (timers p) (nextTimerId p) (console p) (engineCalls p) (uncaught p).
Definition setClock v p := mkPage (Fuse p) (searchIndex p) (fuse p) (searchTimeout p) (inputValue p) (inputFocused p) (dropdownHidden p) (resultsContent p) v (timers p) (nextTimerId p) (console p) (engineCalls p) (uncaught p).
Definition setTimers v p := mkPage (Fuse p) (searchIndex p) (fuse p) (searchTimeout p) (inputValue p) (inputFocused p) (dropdownHidden p) (resultsContent p) (clock p) v (nextTimerId p) (console p) (engineCalls p) (uncaught p).
Definition setNextTimerId v p := mkPage (Fuse p) (searchIndex p) (fuse p) (searchTimeout p) (inputValue p) (inputFocused p) (dropdownHidden p) (resultsContent p) (clock p) (timers p) v (console p) (engineCalls p) (uncaught p).
Definition setConsole v p := mkPage (Fuse p) (searchIndex p) (fuse p) (searchTimeout p) (inputValue p) (inputFocused p) (dropdownHidden p) (resultsContent p) (clock p) (timers p) (nextTimerId p) v (engineCalls p) (uncaught p).
Definition setEngineCalls v p := mkPage (Fuse p) (searchIndex p) (fuse p) (searchTimeout p) (inputValue p) (inputFocused p) (dropdownHidden p) (resultsContent p) (clock p) (timers p) (nextTimerId p) (console p) v (uncaught p).
Definition setUncaught v p := mkPage (Fuse p) (searchIndex p) (fuse p) (searchTimeout p) (inputValue p) (inputFocused p) (dropdownHidden p) (resultsContent p) (clock p) (timers p) (nextTimerId p) (console p) (engineCalls p) v.

(** The page as the component's markup and the declarations of the script
    leave it: the dropdown carries the class [hidden]. *)
Definition initialPage : Page :=
  {| Fuse := None; searchIndex := ParsedArray []; fuse := None; searchTimeout := None;
     inputValue := []; inputFocused := false;
     dropdownHidden := Some true; resultsContent := Some InitialMarkup;
     clock := 0%N; timers := []; nextTimerId := 1;
     console := []; engineCalls := []; uncaught := [] |}.

(** The results panel is on screen. *)
Definition resultsShown (p : Page) : bool :=
  match dropdownHidden p with
  | Some false => true
  | _ => false
  end.

(** *** Computations of the script: state and exceptions *)

Definition M (A : Type) : Type := Page -> Completion A * Page.

Definition ret {A} (a : A) : M A := fun p => (Normal a, p).

Definition bind {A B} (c : M A) (k : A -> M B) : M B :=
  fun p =>
    match c p with
    | (Normal a, p') => k a p'
    | (Throw e, p') => (Throw e, p')
    end.

Definition throw {A} (e : Exn) : M A := fun p => (Throw e, p).

Definition tryCatch {A} (c : M A) (handler : Exn -> M A) : M A :=
  fun p =>
    match c p with
    | (Normal a, p') => (Normal a, p')
    | (Throw e, p') => handler e p'
    end.

(** [await] of a promise that settles as [c]. *)
Definition await {A} (c : Completion A) : M A := fun p => (c, p).

Definition get {A} (f : Page -> A) : M A := fun p => (Normal (f p), p).
Definition modify (f : Page -> Page) : M unit := fun p => (Normal tt, f p).

Notation "x <- c1 ;; c2" := (bind c1 (fun x => c2))
  (at level 61, c1 at next level, right associativity).
Notation "c1 ;; c2" := (bind c1 (fun _ => c2))
  (at level 61, right associativity).

Definition consoleLog (e : LogEntry) : M unit :=
  modify (fun p => setConsole (console p ++ [e]) p).

(** *** The functions of the script *)

(** [new Fuse(searchIndex, options)] with the variables as they are. *)
Definition newFuse : M FuseInstance :=
  cls <- get Fuse ;;
  index <- get searchIndex ;;
  match cls with
  | Some F => await (F index options)
  | None => throw TypeError
  end.

Definition initializeSearch (env : InitEnv) : M unit :=
  tryCatch
    (fuseModule <- await (importFuse env) ;;
     modify (setFuseClass (Some fuseModule)) ;;
     response <- await (fetchIndex env) ;;
     (if negb (ok response) then throw (HttpError (status response)) else ret tt) ;;
     index <- await (json response) ;;
     modify (setSearchIndex index) ;;
     length <- await (lengthOf index) ;;
     consoleLog (LogIndexLoaded length) ;;
     instance <- newFuse ;;
     modify (setFuse (Some instance)) ;;
     consoleLog LogInitialized)
    (fun error => consoleLog (LogError error)).

(** [resultsDropdown?.classList.add('hidden')] *)
Definition hideResults : M unit :=
  modify (fun p =>
    match dropdownHidden p with
    | Some _ => setDropdownHidden (Some true) p
    | None => p
    end).

Definition jsonTruthy (v : option Json) : bool :=
  match v with
  | None | Some JNull | Some (JStr []) => false
  | Some _ => true
  end.

Definition renderCard (result : FuseResult) : Card :=
  let item := item result in
  {| href := getProp "url" item;
     cardTitle := getProp "title" item;
     cardApp := getProp "app" item;
     cardExcerpt := if jsonTruthy (getProp "excerpt" item)
                    then getProp "excerpt" item else None |}.

Definition displayResults (results : list FuseResult) : M unit :=
  resultsContainer <- get resultsContent ;;
  resultsDropdown <- get dropdownHidden ;;
  match resultsContainer, resultsDropdown with
  | Some _, Some _ =>
      modify (setResultsContent
                (Some match results with
                      | [] => NoResultsFound
                      | _ :: _ => Cards (map renderCard (firstn 10 results))
                      end)) ;;
      modify (setDropdownHidden (Some false))
  | _, _ => ret tt
  end.

(** [fuse.search(query)], noted in [engineCalls]. *)
Definition fuseSearch (engine : FuseInstance) (query : jsstring) : M (list FuseResult) :=
  modify (fun p => setEngineCalls (engineCalls p ++ [query]) p) ;;
  ret (searchMethod engine query).

(** [if (!fuse || !query.trim()) { hideResults(); return; } ...] *)
Definition search (query : jsstring) : M unit :=
  engine <- get fuse ;;
  match engine with
  | None => hideResults
  | Some engine =>
      if negb (truthy (trim query)) then hideResults
      else
        results <- fuseSearch engine query ;;
        consoleLog (LogResults query results) ;;
        displayResults results
  end.

(** *** Timers *)

Definition setTimeout (query : jsstring) (delay : N) : M nat :=
  fun p =>
    let id := nextTimerId p in
    let timer := {| timerId := id; due := (clock p + delay)%N; pendingQuery := query |} in
    (Normal id, setNextTimerId (S id) (setTimers (timers p ++ [timer]) p)).

Definition cancel (id : nat) (table : list Timer) : list Timer :=
  filter (fun timer => negb (timerId timer =? id)) table.

(** [clearTimeout(id)]; an [id] that is [undefined] or no longer pending
    clears nothing. *)
Definition clearTimeout (id : option nat) : M unit :=
  modify (fun p =>
    match id with
    | Some i => setTimers (cancel i (timers p)) p
    | None => p
    end).

(** *** The listeners *)

Inductive Key : Type := Escape | OtherKey.

(** An event on the search input or the document.  [Input value] is an edit
    that leaves [value] in the field; a click says whether its target lies
    in the input and whether it lies in the results panel. *)
Inductive UserEvent : Type :=
| Input (value : jsstring)
| Focus
| Click (inInput inResults : bool)
| KeyDown (key : Key).

Definition onInput (value : jsstring) : M unit :=
  modify (setInputValue value) ;;   (* the edit, before the listener runs *)
  pending <- get searchTimeout ;;
  clearTimeout pending ;;
  query <- get inputValue ;;
  id <- setTimeout query 300 ;;
  modify (setSearchTimeout (Some id)).

Definition onFocus : M unit :=
  modify (setInputFocused true) ;;  (* the focus, before the listener runs *)
  value <- get inputValue ;;
  if truthy (trim value) then search value else ret tt.

Definition onClick (inInput inResults : bool) : M unit :=
  dropdown <- get dropdownHidden ;;
  let inPanel := match dropdown with Some _ => inResults | None => false end in
  if negb inInput && negb inPanel then hideResults else ret tt.

Definition onKeyDown (key : Key) : M unit :=
  match key with
  | Escape => hideResults ;; modify (setInputFocused false)
  | OtherKey => ret tt
  end.

Definition listener (e : UserEvent) : M unit :=
  match e with
  | Input value => onInput value
  | Focus => onFocus
  | Click inInput inResults => onClick inInput inResults
  | KeyDown key => onKeyDown key
  end.

(** *** The event loop *)

(** A task runs to completion; an exception it lets escape is reported by
    the host and noted in [uncaught]. *)
Definition runTask (c : M unit) (p : Page) : Page :=
  match c p with
  | (Normal _, p') => p'
  | (Throw e, p') => setUncaught (uncaught p' ++ [e]) p'
  end.

Definition isDue (t : N) (timer : Timer) : bool := (due timer <=? t)%N.

Fixpoint fire (ready : list Timer) (p : Page) : Page :=
  match ready with
  | [] => p
  | timer :: rest =>
      fire rest (runTask (search (pendingQuery timer))
                         (setTimers (cancel (timerId timer) (timers p)) p))
  end.

(** Time passes until [t]: the timers due by then fire, in the order they
    were set (all have the same delay). *)
Definition advanceTo (t : N) (p : Page) : Page :=
  setClock (N.max (clock p) t) (fire (filter (isDue t) (timers p)) p).

(** The handler of [DOMContentLoaded]: it starts [initializeSearch] and
    registers the listeners. *)
Definition domContentLoaded (p : Page) : Page :=
  runTask (consoleLog LogInitializing) p.

(** The promises of [initializeSearch] have settled as [env] at time [t].
    The listeners read of the variables it assigns only [fuse], which it
    assigns last, so that its steps are taken at once. *)
Definition initSettles (t : N) (env : InitEnv) (p : Page) : Page :=
  runTask (initializeSearch env) (advanceTo t p).

Definition userStep (t : N) (e : UserEvent) (p : Page) : Page :=
  runTask (listener e) (advanceTo t p).

Fixpoint runUser (events : list (N * UserEvent)) (p : Page) : Page :=
  match events with
  | [] => p
  | (t, e) :: rest => runUser rest (userStep t e p)
  end.

(** The states a page goes through. *)
Inductive Reachable : Page -> Prop :=
| ReachLoaded : Reachable (domContentLoaded initialPage)
| ReachUser t e p : Reachable p -> Reachable (userStep t e p)
| ReachIdle t p : Reachable p -> Reachable (advanceTo t p)
| ReachInit t env p : Reachable p -> Reachable (initSettles t env p).

(** A burst of keystrokes: each one with its time and the text it leaves. *)
Definition typing (keystrokes : list (N * jsstring)) : list (N * UserEvent) :=
  map (fun k => (fst k, Input (snd k))) keystrokes.

(** Every keystroke comes less than the delay of the timer after the one
    before it ([prev] is the time of that one). *)
Fixpoint withinWindow (prev : N) (keystrokes : list (N * jsstring)) : Prop :=
  match keystrokes with
  | [] => True
  | (t, _) :: rest => (prev <= t /\ t < prev + 300)%N /\ withinWindow t rest
  end.

End SearchBox.

(* ================================================================== *)
(** ** The wording of the specification                                *)
(* ================================================================== *)

(** The classes of code units are not unfolded by simplification. *)
Arguments isLetter : simpl never.
Arguments isWordChar : simpl never.
Arguments isWhiteSpace : simpl never.
Arguments isMarkup : simpl never.
Arguments isAscii : simpl never.
Arguments nonWord : simpl never.
Arguments SearchBox.cancel : simpl never.

(** The maximal runs of code units of a class. *)
Definition runsOf (cls : codeunit -> bool) (s : jsstring) : list jsstring :=
  filter truthy (pieces (fun c => negb (cls c)) s).

(** Keywords as the specification words them: the runs of three or more
    letters of the lower-cased body, the first fifty, joined by spaces. *)
Definition keywordsAsSpecified (lowered : jsstring) : jsstring :=
  join (lit " ")
       (firstn 50 (filter (fun w => 3 <=? List.length w) (runsOf isLetter lowered))).

(** A whole word, a maximal run of word characters, is kept as a keyword
    when it has three or more characters and all of them are letters. *)
Definition isKeyword (w : jsstring) : bool :=
  (3 <=? List.length w) && forallb isLetter w.

Definition wholeWords (s : jsstring) : list jsstring :=
  filter isKeyword (runsOf isWordChar s).

(** A text without digits and underscores, in which every word is a run of
    letters. *)
Definition noDigitOrUnderscore (s : jsstring) : bool :=
  forallb (fun c => negb (isDigit c || (c =? 95)%N)) s.

(** The display name as the specification words it, in one pass: a hyphen
    becomes a space, and the first code unit of the segment and of every
    word after a hyphen is put in upper case. *)
Fixpoint capitalizeWords (upper : jsstring -> jsstring) (atStart : bool)
    (s : jsstring) : jsstring :=
  match s with
  | [] => []
  | c :: r =>
      if (c =? 45)%N then 32%N :: capitalizeWords upper true r
      else (if atStart then upper [c] else [c]) ++ capitalizeWords upper false r
  end.

Definition displayNameAsSpecified (upper : jsstring -> jsstring) (segment : jsstring) : jsstring :=
  capitalizeWords upper true segment.

(** The same in two steps: the hyphens are replaced first, and the words of
    the result, taken between its spaces, are capitalized then.  The two
    readings differ only on a segment that has a space of its own, which a
    slug generated from a file path never has. *)
Definition hyphensToSpaces (s : jsstring) : jsstring :=
  map (fun c => if (c =? 45)%N then 32%N else c) s.

Fixpoint capitalizeSpaced (upper : jsstring -> jsstring) (atStart : bool)
    (s : jsstring) : jsstring :=
  match s with
  | [] => []
  | c :: r =>
      if (c =? 32)%N then c :: capitalizeSpaced upper true r
      else (if atStart then upper [c] else [c]) ++ capitalizeSpaced upper false r
  end.

Definition hasSpace (s : jsstring) : bool := existsb (fun c => (c =? 32)%N) s.

(** Whether a string begins with white space. *)
Definition startsWithSpace (s : jsstring) : bool :=
  match s with
  | [] => false
  | c :: _ => isWhiteSpace c
  end.

(** The excerpt as the specification words it, written without the functions
    of the route.  The markup characters are [#], [*] and the backtick; the
    white space is the WhiteSpace and LineTerminator of ECMAScript, listed
    one code unit at a time. *)
Definition markupUnits : list codeunit := [35; 42; 96]%N.

Definition whiteSpaceUnits : list codeunit :=
  [ 9; 10; 11; 12; 13; 32; 160; 5760;
    8192; 8193; 8194; 8195; 8196; 8197; 8198; 8199; 8200; 8201; 8202;
    8232; 8233; 8239; 8287; 12288; 65279 ]%N.

Definition listed (units : list codeunit) (c : codeunit) : bool :=
  existsb (N.eqb c) units.

Fixpoint withoutMarkup (s : jsstring) : jsstring :=
  match s with
  | [] => []
  | c :: rest =>
      if listed markupUnits c then withoutMarkup rest else c :: withoutMarkup rest
  end.

Definition beginsBlank (s : jsstring) : bool :=
  match s with
  | [] => false
  | c :: _ => listed whiteSpaceUnits c
  end.

(** [core] is [s] less the white space at its two ends. *)
Definition IsTrimOf (s core : jsstring) : Prop :=
  exists lead trail,
    s = lead ++ core ++ trail /\
    forallb (listed whiteSpaceUnits) lead = true /\
    forallb (listed whiteSpaceUnits) trail = true /\
    beginsBlank core = false /\
    beginsBlank (rev core) = false.

(** The text of a body, which a document may lack. *)
Definition bodyText (body : option jsstring) : jsstring :=
  match body with
  | Some text => text
  | None => []
  end.

(** [e] is the excerpt of a body: the first 200 code units without the markup
    characters, less the white space around them, followed by three dots. *)
Definition IsExcerptOfBody (body : option jsstring) (e : jsstring) : Prop :=
  exists core,
    IsTrimOf (withoutMarkup (firstn 200 (bodyText body))) core /\
    e = core ++ [46; 46; 46]%N.

(** The keys of a record of the artifact as the specification lists them, and
    those it does not call optional. *)
Definition specifiedKeys : list string :=
  [ "title"; "description"; "url"; "app"; "category"; "tags"; "excerpt";
    "keywords"; "lastUpdated" ]%string.

Definition requiredKeys : list string :=
  [ "title"; "description"; "url"; "app"; "category"; "tags"; "excerpt";
    "lastUpdated" ]%string.

Definition KeysAsSpecified (record : Json) : Prop :=
  incl (keysOf record) specifiedKeys /\ incl requiredKeys (keysOf record).

(** The keys the route writes, in order, with and without keywords. *)
Definition writtenKeys (withKeywords : bool) : list string :=
  List.app
    [ "title"; "description"; "url"; "app"; "category"; "tags"; "content";
      "excerpt" ]%string
    (List.app (if withKeywords then [ "keywords"%string ] else [])
              [ "lastUpdated"%string ]).

Definition isJStr (j : option Json) : Prop := exists s, j = Some (JStr s).

(** The shape of a record of the artifact. *)
Definition RecordShape (toISOString : Date -> jsstring) (withKeywords : bool)
    (record : Json) : Prop :=
  keysOf record = writtenKeys withKeywords /\
  isJStr (getProp "title" record) /\
  isJStr (getProp "description" record) /\
  isJStr (getProp "url" record) /\
  isJStr (getProp "app" record) /\
  isJStr (getProp "category" record) /\
  (exists ts, getProp "tags" record = Some (JArr (map JStr ts))) /\
  isJStr (getProp "content" record) /\
  isJStr (getProp "excerpt" record) /\
  (getProp "lastUpdated" record = Some JNull \/
   exists d, getProp "lastUpdated" record = Some (JStr (toISOString d))).

(** What a record of the artifact holds of its document: the title, the
    slug behind a slash, the category and the tags of the front matter, the
    whole body as content, the excerpt of the body, the description or else
    the excerpt, and the date as its ISO string or [null]. *)
Definition RecordOfDoc (toISOString : Date -> jsstring) (withKeywords : bool)
    (doc : Doc) (record : Json) : Prop :=
  getProp "title" record = Some (JStr (title (data doc))) /\
  getProp "url" record = Some (JStr (47%N :: slug doc)) /\
  getProp "category" record
    = Some (JStr (match category (data doc) with
                  | development => lit "development"
                  | automation => lit "automation"
                  | support => lit "support"
                  end)) /\
  getProp "tags" record
    = Some (JArr (map JStr (match tags (data doc) with
                            | Some ts => ts
                            | None => []
                            end))) /\
  getProp "content" record = Some (JStr (bodyText (body doc))) /\
  (exists excerpt,
      IsExcerptOfBody (body doc) excerpt /\
      getProp "excerpt" record = Some (JStr excerpt) /\
      getProp "description" record
        = Some (JStr (match description (data doc) with
                      | Some (c :: rest) => c :: rest
                      | _ => excerpt
                      end))) /\
  getProp "lastUpdated" record
    = Some (match lastUpdated (data doc) with
            | None => JNull
            | Some d =>
                if withKeywords then JStr (toISOString d)
                else match toISOString d with
                     | [] => JNull
                     | c :: rest => JStr (c :: rest)
                     end
            end).

Definition elements (j : Json) : list Json :=
  match j with
  | JArr xs => xs
  | _ => []
  end.

(** A list of weights each greater than, or each at least, the next. *)
Fixpoint chain (R : Q -> Q -> Prop) (ws : list Q) : Prop :=
  match ws with
  | a :: ((b :: _) as rest) => R a b /\ chain R rest
  | _ => True
  end.

Definition strictlyDecreasing (ws : list Q) : Prop := chain (fun a b => (b < a)%Q) ws.
Definition nonIncreasing (ws : list Q) : Prop := chain (fun a b => (b <= a)%Q) ws.

(** The weight the options give to a key. *)
Definition weightOf (o : SearchBox.FuseOptions) (k : string) : option Q :=
  option_map SearchBox.weight
    (find (fun key => String.eqb (SearchBox.name key) k) (SearchBox.keys o)).

(** The engine has been constructed, and both elements of the results panel
    are on the page. *)
Definition isReady (p : SearchBox.Page) : bool :=
  match SearchBox.fuse p with
  | Some _ => true
  | None => false
  end.

Definition hasPanel (p : SearchBox.Page) : bool :=
  match SearchBox.resultsContent p, SearchBox.dropdownHidden p with
  | Some _, Some _ => true
  | _, _ => false
  end.

(** The calls of the engine that running [query] on page [p] makes. *)
Definition invokes (p : SearchBox.Page) (query : jsstring) : list jsstring :=
  if isReady p && truthy (trim query) then [query] else [].

(** At most one timer is pending, and it is the one [searchTimeout] names. *)
Definition timersOk (p : SearchBox.Page) : Prop :=
  SearchBox.timers p = [] \/
  exists timer, SearchBox.timers p = [timer] /\
                SearchBox.searchTimeout p = Some (SearchBox.timerId timer).

(** No engine, nothing asked of one, the panel hidden, nothing escaped. *)
Definition Silent (p : SearchBox.Page) : Prop :=
  SearchBox.fuse p = None /\ SearchBox.engineCalls p = [] /\
  SearchBox.dropdownHidden p = Some true /\ SearchBox.uncaught p = [].

(* ================================================================== *)
(** ** Sample data                                                     *)
(* ================================================================== *)

(** A host whose case conversion leaves text outside ASCII as it is and whose
    dates print as a fixed string; the samples below are ASCII and undated. *)
Definition plainCase (s : jsstring) : jsstring := s.
Definition fixedISO (d : Date) : jsstring := lit "2025-07-15T00:00:00.000Z".

Definition sampleDoc : Doc :=
  {| slug := lit "application-one/automation";
     body := Some (lit "# Setup

Run `npm ci` in node_modules, then **build** the app.");
     data := {| title := lit "Application One - Automation Guide";
                description := None;
                app := lit "Application One";
                category := automation;
                order := None;
                lastUpdated := None;
                tags := Some [lit "automation"; lit "ci-cd"] |} |}.

(** A stand-in for the library that finds nothing, and a response that
    delivers an empty index. *)
Definition silentFuse : SearchBox.FuseClass :=
  fun _ _ => SearchBox.Normal {| SearchBox.searchMethod := fun _ => [] |}.

Definition emptyIndexEnv : SearchBox.InitEnv :=
  {| SearchBox.importFuse := SearchBox.Normal silentFuse;
     SearchBox.fetchIndex :=
       SearchBox.Normal {| SearchBox.status := 200%N;
                           SearchBox.json :=
                             SearchBox.Normal (SearchBox.ParsedArray []) |} |}.

Definition serverErrorEnv : SearchBox.InitEnv :=
  {| SearchBox.importFuse := SearchBox.Normal silentFuse;
     SearchBox.fetchIndex :=
       SearchBox.Normal {| SearchBox.status := 500%N;
                           SearchBox.json := SearchBox.Throw SearchBox.SyntaxError |} |}.

Definition loadedPage : SearchBox.Page :=
  SearchBox.domContentLoaded SearchBox.initialPage.

Definition readyPage : SearchBox.Page :=
  SearchBox.initSettles 50%N emptyIndexEnv loadedPage.

(* ================================================================== *)
(** ** The document page                                               *)
(* ================================================================== *)

(** The frontmatter of the page [[...slug].astro]: one path per document, and
    for a document the names and links of its header. *)

Record StaticPath : Type := { paramSlug : jsstring; propDoc : Doc }.

Definition getStaticPaths (docs : list Doc) : list StaticPath :=
  map (fun doc => {| paramSlug := slug doc; propDoc := doc |}) docs.

Record Crumb : Type := { crumbName : jsstring; crumbHref : jsstring }.

Record PageHead : Type := {
  headAppName : jsstring;
  headCategoryName : jsstring;
  pageTitle : jsstring;
  breadcrumb : list Crumb
}.

(** The frontmatter either runs through or stops at a [TypeError]. *)
Inductive Outcome (A : Type) : Type :=
| Returns (a : A)
| ThrowsTypeError.
Arguments Returns {A} a.
Arguments ThrowsTypeError {A}.

(** [const [app, category] = doc.slug.split('/')]: without a second segment
    [category] is [undefined], and [category.split('-')] throws. *)
Definition docPageHead (unicodeUpper : jsstring -> jsstring) (doc : Doc) : Outcome PageHead :=
  match split 47%N (slug doc) with
  | app :: category :: _ =>
      let appName := appNameOf unicodeUpper app in
      let categoryName := appNameOf unicodeUpper category in
      Returns
        {| headAppName := appName;
           headCategoryName := categoryName;
           pageTitle := title (data doc) ++ lit " | " ++ appName;
           breadcrumb :=
             [ {| crumbName := lit "Home"; crumbHref := lit "/" |};
               {| crumbName := appName; crumbHref := lit "/" ++ app |};
               {| crumbName := categoryName; crumbHref := lit "/" ++ slug doc |} ] |}
  | _ => ThrowsTypeError
  end.

(** *** The layouts *)

Record Frontmatter : Type := { fmTitle : jsstring; fmDescription : option jsstring }.

Record DocsLayoutProps : Type := {
  dlTitle : jsstring;
  dlDescription : option jsstring;
  dlFrontmatter : option Frontmatter
}.

Record BaseLayoutProps : Type := { blTitle : jsstring; blDescription : option jsstring }.

(** What the base layout writes into the head of the document: the title and
    the description of the [meta] elements. *)
Record HtmlHead : Type := { headTitle : jsstring; metaDescription : jsstring }.

Definition defaultDescription : jsstring :=
  lit "Hallcrest Engineering Product Support Documentation".

(** [const { title, description = "..." } = Astro.props]: the default stands
    in for a description that is [undefined], and for no other. *)
Definition baseLayout (props : BaseLayoutProps) : HtmlHead :=
  {| headTitle := blTitle props;
     metaDescription := match blDescription props with
                        | Some d => d
                        | None => defaultDescription
                        end |}.

(** [a || b] where both are a string or [undefined]. *)
Definition optOr (a b : option jsstring) : option jsstring :=
  match a with
  | Some s => if truthy s then Some s else b
  | None => b
  end.

(** [frontmatter?.title || title] and [frontmatter?.description || description],
    handed to the base layout. *)
Definition docsLayout (props : DocsLayoutProps) : HtmlHead :=
  let pageTitle := strOr (option_map fmTitle (dlFrontmatter props)) (dlTitle props) in
  let pageDescription :=
    optOr (match dlFrontmatter props with
           | Some fm => fmDescription fm
           | None => None
           end)
          (dlDescription props) in
  baseLayout {| blTitle := pageTitle; blDescription := pageDescription |}.

(** [<DocsLayout title={pageTitle} description={doc.data.description}>] *)
Definition docPageDocument (unicodeUpper : jsstring -> jsstring) (doc : Doc) : Outcome HtmlHead :=
  match docPageHead unicodeUpper doc with
  | Returns head =>
      Returns (docsLayout {| dlTitle := pageTitle head;
                             dlDescription := description (data doc);
                             dlFrontmatter := None |})
  | ThrowsTypeError => ThrowsTypeError
  end.

(** *** The table of contents *)

(** The script of the page collects the headings [h1] to [h4] of the content,
    gives an id to those that have none, and lists a link for each. *)

Inductive HeadingTag : Type := H1 | H2 | H3 | H4.

(** A heading; its [id] is the empty string when it has none. *)
Record Heading : Type := {
  tagName : HeadingTag;
  headingId : jsstring;
  textContent : jsstring
}.

(** [parseInt(heading.tagName.charAt(1))] *)
Definition levelOf (t : HeadingTag) : nat :=
  match t with
  | H1 => 1
  | H2 => 2
  | H3 => 3
  | H4 => 4
  end.

(** A number in a template literal. *)
Definition decimal (n : nat) : jsstring :=
  lit (NilEmpty.string_of_uint (Nat.to_uint n)).

(** An item of the list: whether it is indented ([ml-4]), and the target,
    text and weight ([font-medium]) of its link. *)
Record TocItem : Type := {
  itemIndented : bool;
  linkHref : jsstring;
  linkText : jsstring;
  linkMedium : bool
}.

(** [if (!heading.id) heading.id = `heading-${index}`] *)
Definition ensureId (index : nat) (heading : Heading) : Heading :=
  if truthy (headingId heading) then heading
  else {| tagName := tagName heading;
          headingId := lit "heading-" ++ decimal index;
          textContent := textContent heading |}.

Definition tocItem (heading : Heading) : TocItem :=
  let level := levelOf (tagName heading) in
  {| itemIndented := 2 <? level;
     linkHref := lit "#" ++ headingId heading;
     linkText := textContent heading;
     linkMedium := level =? 1 |}.

(** The callback of [headings.forEach], from [index] on: the headings as it
    leaves them and the items it appends. *)
Fixpoint forEachHeading (index : nat) (headings : list Heading) : list Heading * list TocItem :=
  match headings with
  | [] => ([], [])
  | heading :: rest =>
      let heading' := ensureId index heading in
      let (rest', items) := forEachHeading (S index) rest in
      (heading' :: rest', tocItem heading' :: items)
  end.

(** The page after the script: its headings, the list appended to [#toc] (if
    one was), and whether the box around [#toc] has been taken off. *)
Record TocResult : Type := {
  headingsAfter : list Heading;
  tocList : option (list TocItem);
  tocBoxHidden : bool
}.

Definition generateToc (tocContainer : bool) (headings : list Heading) : TocResult :=
  if (0 <? List.length headings) && tocContainer then
    let (headings', items) := forEachHeading 0 headings in
    {| headingsAfter := headings'; tocList := Some items; tocBoxHidden := false |}
  else if tocContainer then
    {| headingsAfter := headings; tocList := None; tocBoxHidden := true |}
  else
    {| headingsAfter := headings; tocList := None; tocBoxHidden := false |}.

(* ================================================================== *)
(** ** The sidebar                                                     *)
(* ================================================================== *)

(** One application of the sidebar: whether its list of documents carries
    [hidden], whether its chevron carries [rotate-90], and whether
    [aria-expanded] of its button is [true].  The click listener of the
    button switches all three by the class of the list. *)
Record AppSection : Type := {
  contentHidden : bool;
  chevronRotated : bool;
  ariaExpanded : bool
}.

(** [found] is [content && chevron]. *)
Definition toggleSection (found : bool) (s : AppSection) : AppSection :=
  if found then
    if contentHidden s
    then {| contentHidden := false; chevronRotated := true; ariaExpanded := true |}
    else {| contentHidden := true; chevronRotated := false; ariaExpanded := false |}
  else s.

(* ================================================================== *)
(** ** Observations on the search box                                  *)
(* ================================================================== *)

(** The queries of the console's entries for search results. *)
Definition loggedQueries (log : list SearchBox.LogEntry) : list jsstring :=
  flat_map (fun e => match e with
                     | SearchBox.LogResults query _ => [query]
                     | _ => []
                     end) log.

Definition contentOk (content : option SearchBox.Html) : Prop :=
  match content with
  | Some (SearchBox.Cards cs) => 1 <= List.length cs <= 10
  | _ => True
  end.

(** What holds of the panel and of the calls of the engine in every state of
    the page. *)
Definition PanelInv (p : SearchBox.Page) : Prop :=
  contentOk (SearchBox.resultsContent p) /\
  (SearchBox.dropdownHidden p = Some false ->
   isReady p = true /\
   (SearchBox.resultsContent p = Some SearchBox.NoResultsFound \/
    exists cs, SearchBox.resultsContent p = Some (SearchBox.Cards cs))) /\
  Forall (fun query => truthy (trim query) = true) (SearchBox.engineCalls p) /\
  loggedQueries (SearchBox.console p) = SearchBox.engineCalls p /\
  SearchBox.uncaught p = [].

(** Every keystroke comes 300ms or more after the one before it ([prev] is
    the time of that one). *)
Fixpoint apart (prev : N) (keystrokes : list (N * jsstring)) : Prop :=
  match keystrokes with
  | [] => True
  | (t, _) :: rest => (prev + 300 <= t)%N /\ apart t rest
  end.

(** A stand-in for the library that returns every record of the index for
    every query, and an index of twelve records. *)
Definition generousFuse : SearchBox.FuseClass :=
  fun index _ =>
    match index with
    | SearchBox.ParsedArray records =>
        SearchBox.Normal
          {| SearchBox.searchMethod := fun _ =>
               map (fun record => {| SearchBox.item := record;
                                     SearchBox.refIndex := 0;
                                     SearchBox.score := 0%Q |}) records |}
    | _ => SearchBox.Throw SearchBox.TypeError
    end.

Definition twelveRecords : list Json :=
  elements (artifact plainCase plainCase fixedISO (repeat sampleDoc 12)).

Definition twelveRecordsEnv : SearchBox.InitEnv :=
  {| SearchBox.importFuse := SearchBox.Normal generousFuse;
     SearchBox.fetchIndex :=
       SearchBox.Normal {| SearchBox.status := 200%N;
                           SearchBox.json :=
                             SearchBox.Normal (SearchBox.ParsedArray twelveRecords) |} |}.

(** The page after the index of twelve has loaded, [guide] has been typed and
    the timer has fired. *)
Definition searchedPage : SearchBox.Page :=
  SearchBox.advanceTo 1000%N
    (SearchBox.userStep 500%N (SearchBox.Input (lit "guide"))
       (SearchBox.initSettles 50%N twelveRecordsEnv loadedPage)).

(* ================================================================== *)
(** ** Strings: trimming, cutting and joining                          *)
(* ================================================================== *)

Lemma trimStart_decompose (s : jsstring) :
  exists lead, s = lead ++ trimStart s /\ forallb isWhiteSpace lead = true.
Proof.
  induction s as [|c r IH]; simpl.
  - exists []. split; reflexivity.
  - destruct (isWhiteSpace c) eqn:Hc.
    + destruct IH as [lead [Heq Hall]].
      exists (c :: lead). simpl. rewrite Hc, Hall. split; [congruence | reflexivity].
    + exists []. split; reflexivity.
Qed.

Lemma trimStart_clean (s : jsstring) : startsWithSpace (trimStart s) = false.
Proof.
  induction s as [|c r IH]; simpl; [reflexivity|].
  destruct (isWhiteSpace c) eqn:Hc; [assumption | simpl; assumption].
Qed.

Lemma trimStart_fixed (s : jsstring) :
  startsWithSpace s = false -> trimStart s = s.
Proof.
  destruct s as [|c r]; simpl; [reflexivity|].
  intros ->. reflexivity.
Qed.

Lemma forallb_rev {A} (f : A -> bool) (l : list A) :
  forallb f (rev l) = forallb f l.
Proof.
  induction l as [|a l IH]; simpl; [reflexivity|].
  rewrite forallb_app, IH. simpl. rewrite andb_true_r. apply andb_comm.
Qed.

Lemma trimEnd_decompose (s : jsstring) :
  exists trail, s = trimEnd s ++ trail /\ forallb isWhiteSpace trail = true.
Proof.
  unfold trimEnd.
  destruct (trimStart_decompose (rev s)) as [lead [Heq Hall]].
  exists (rev lead). split.
  - rewrite <- rev_app_distr, <- Heq, rev_involutive. reflexivity.
  - rewrite forallb_rev. assumption.
Qed.

Lemma trimEnd_clean (s : jsstring) : startsWithSpace (rev (trimEnd s)) = false.
Proof.
  unfold trimEnd. rewrite rev_involutive. apply trimStart_clean.
Qed.

Lemma startsWithSpace_prefix (core trail : jsstring) :
  startsWithSpace (core ++ trail) = false -> startsWithSpace core = false.
Proof.
  destruct core; simpl; intros; [reflexivity | assumption].
Qed.

(** [trim] takes the white space off both ends and nothing else. *)
Lemma trim_decompose (s : jsstring) :
  exists lead trail,
    s = lead ++ trim s ++ trail /\
    forallb isWhiteSpace lead = true /\
    forallb isWhiteSpace trail = true /\
    startsWithSpace (trim s) = false /\
    startsWithSpace (rev (trim s)) = false.
Proof.
  unfold trim.
  destruct (trimStart_decompose s) as [lead [Hs Hlead]].
  destruct (trimEnd_decompose (trimStart s)) as [trail [Ht Htrail]].
  exists lead, trail. repeat split; try assumption.
  - rewrite <- Ht. exact Hs.
  - apply startsWithSpace_prefix with (trail := trail).
    rewrite <- Ht. apply trimStart_clean.
  - apply trimEnd_clean.
Qed.

Lemma removeClass_clean (cls : codeunit -> bool) (s : jsstring) :
  forallb (fun c => negb (cls c)) (removeClass cls s) = true.
Proof.
  unfold removeClass. apply forallb_forall. intros c Hc.
  apply filter_In in Hc. tauto.
Qed.

Lemma join_head (sep x y : jsstring) (rest : list jsstring) :
  join sep ((x ++ y) :: rest) = x ++ join sep (y :: rest).
Proof.
  destruct rest; simpl; [reflexivity | symmetry; apply app_assoc].
Qed.

Lemma join_cons2 (sep p q : jsstring) (rest : list jsstring) :
  join sep (p :: q :: rest) = p ++ sep ++ join sep (q :: rest).
Proof. reflexivity. Qed.

Lemma strOr_empty (o : option jsstring) :
  strOr o [] = match o with Some s => s | None => [] end.
Proof.
  destruct o as [[|c s]|]; reflexivity.
Qed.

Lemma splitWhen_first_length (isSep : codeunit -> bool) (s : jsstring) :
  firstn (List.length (fst (splitWhen isSep s))) s = fst (splitWhen isSep s).
Proof.
  induction s as [|c r IH]; simpl; [reflexivity|].
  destruct (splitWhen isSep r) as [w ws]. simpl in IH.
  destruct (isSep c); simpl; [reflexivity | now rewrite IH].
Qed.

(* ================================================================== *)
(** ** The pattern of the keywords                                     *)
(* ================================================================== *)

Lemma isLetter_isWordChar (c : codeunit) : isLetter c = true -> isWordChar c = true.
Proof. unfold isWordChar. intros ->. reflexivity. Qed.

Lemma boundaryThenEnd_eq (prev : option codeunit) (rest : jsstring) (n : nat) :
  boundaryThenEnd prev rest n =
  if xorb (isWordAt prev) (isWordAt (hd_error rest)) then Some n else None.
Proof. reflexivity. Qed.

(** After a letter, the greedy run of letters followed by [\b] matches exactly
    when the rest of the word is letters only and long enough; giving back
    letters never helps, as there is no boundary between two of them. *)
Lemma repGreedy_letters (s : jsstring) :
  forall (min : nat) (c : codeunit) (n : nat),
    isWordChar c = true ->
    repGreedy isLetter min (Some c) s n boundaryThenEnd =
    let w := fst (splitWhen nonWord s) in
    if (min <=? List.length w) && forallb isLetter w
    then Some (n + List.length w) else None.
Proof.
  induction s as [|d r IH]; intros min c n Hc.
  - simpl. destruct min; simpl.
    + rewrite boundaryThenEnd_eq. simpl. rewrite Hc. simpl.
      f_equal. lia.
    + reflexivity.
  - simpl repGreedy. simpl splitWhen.
    destruct (splitWhen nonWord r) as [w ws] eqn:Hsplit.
    destruct (isLetter d) eqn:Hd.
    + assert (Hw : isWordChar d = true) by now apply isLetter_isWordChar.
      unfold nonWord at 1. rewrite Hw. simpl negb. cbv iota. cbv beta.
      rewrite (IH (pred min) d (S n) Hw). cbv zeta. simpl fst.
      simpl List.length. simpl forallb. rewrite Hd. simpl andb.
      destruct min as [|m].
      * simpl pred. simpl Nat.leb.
        destruct (forallb isLetter w).
        -- simpl. f_equal. lia.
        -- simpl. rewrite boundaryThenEnd_eq. simpl.
           rewrite Hc, Hw. reflexivity.
      * simpl pred. simpl Nat.leb.
        destruct ((m <=? List.length w) && forallb isLetter w).
        -- f_equal. lia.
        -- reflexivity.
    + destruct (isWordChar d) eqn:Hw.
      * unfold nonWord at 1. rewrite Hw. simpl negb. cbv iota. cbv beta.
        simpl fst. simpl forallb. rewrite Hd. simpl andb. rewrite andb_false_r.
        destruct min; [|reflexivity].
        rewrite boundaryThenEnd_eq. simpl. rewrite Hc, Hw. reflexivity.
      * unfold nonWord at 1. rewrite Hw. simpl negb. cbv iota. cbv beta.
        simpl fst. simpl forallb. simpl List.length.
        destruct min; simpl.
        -- rewrite boundaryThenEnd_eq. simpl. rewrite Hc, Hw. simpl.
           f_equal. lia.
        -- reflexivity.
Qed.

Lemma isKeyword_nil : isKeyword [] = false.
Proof. reflexivity. Qed.

(** One attempt of [wordPattern]: it succeeds exactly at the start of a whole
    word that is a keyword, and then matches all of it. *)
Lemma execAt_wordPattern (prev : option codeunit) (s : jsstring) :
  execAt wordPattern prev s =
  let w := fst (splitWhen nonWord s) in
  if negb (isWordAt prev) && isKeyword w then Some (List.length w) else None.
Proof.
  unfold execAt, wordPattern.
  change (matchAtoms [WordBoundary; AtLeast 3 isLetter; WordBoundary]
                     (fun _ _ n => Some n) prev s 0)
    with (if atWordBoundary prev s
          then repGreedy isLetter 3 prev s 0 boundaryThenEnd else None).
  destruct s as [|d r].
  - simpl. destruct (atWordBoundary prev []); [|destruct (isWordAt prev)];
      try reflexivity. now rewrite andb_false_r.
  - simpl repGreedy. simpl splitWhen.
    destruct (splitWhen nonWord r) as [w ws] eqn:Hsplit.
    unfold atWordBoundary. simpl hd_error. simpl isWordAt at 2.
    destruct (isLetter d) eqn:Hd.
    + assert (Hw : isWordChar d = true) by now apply isLetter_isWordChar.
      assert (Hn : nonWord d = false) by (unfold nonWord; now rewrite Hw).
      rewrite Hn. cbv zeta.
      simpl fst. rewrite (repGreedy_letters r 2 d 1 Hw). rewrite Hsplit.
      cbv zeta. simpl fst. unfold isKeyword. simpl List.length. simpl forallb.
      rewrite Hd. simpl andb.
      rewrite Hw.
      destruct (isWordAt prev); simpl xorb; simpl negb; simpl andb; cbv iota;
        [reflexivity|].
      destruct (_ && forallb isLetter w); reflexivity.
    + cbv zeta.
      assert (Hk : isKeyword (d :: w) = false).
      { unfold isKeyword. simpl forallb. rewrite Hd. simpl. apply andb_false_r. }
      destruct (nonWord d); simpl fst; [|rewrite Hk]; rewrite andb_false_r;
        destruct (xorb (isWordAt prev) (isWordChar d)); reflexivity.
Qed.

(** The global match of [wordPattern] walks the string word by word. *)
Lemma matchAllFrom_wordPattern (s : jsstring) :
  forall (prev : option codeunit) (skip : nat),
    (isWordAt prev = true ->
     skip <= List.length (fst (splitWhen nonWord s)) ->
     matchAllFrom wordPattern skip prev s =
     filter isKeyword (snd (splitWhen nonWord s))) /\
    (isWordAt prev = false ->
     matchAllFrom wordPattern 0 prev s =
     filter isKeyword (pieces nonWord s)).
Proof.
  induction s as [|c r IH]; intros prev skip.
  - simpl. rewrite execAt_wordPattern. simpl.
    rewrite andb_false_r. split; intros; destruct skip; reflexivity.
  - unfold pieces. simpl matchAllFrom. simpl splitWhen.
    rewrite execAt_wordPattern. simpl splitWhen.
    unfold pieces in IH.
    destruct (splitWhen nonWord r) as [w ws] eqn:Hsplit.
    simpl fst in IH. simpl snd in IH. cbv zeta.
    destruct (nonWord c) eqn:Hc.
    + (* [c] ends a word *)
      assert (Hprev : isWordAt (Some c) = false).
      { simpl. unfold nonWord in Hc. now destruct (isWordChar c). }
      destruct (IH (Some c) 0) as [_ IHb]. specialize (IHb Hprev).
      simpl fst. simpl snd. rewrite isKeyword_nil, andb_false_r.
      split.
      * intros _ Hskip. simpl in Hskip.
        assert (skip = 0) by lia. subst skip.
        rewrite IHb. reflexivity.
      * intros _. rewrite IHb. simpl filter. reflexivity.
    + (* [c] is a character of a word *)
      assert (Hprev : isWordAt (Some c) = true).
      { simpl. unfold nonWord in Hc. now destruct (isWordChar c). }
      simpl fst. simpl snd. split.
      * intros Hp Hskip. rewrite Hp. simpl negb. simpl andb. cbv iota.
        simpl in Hskip.
        destruct skip as [|k].
        -- destruct (IH (Some c) 0) as [IHa _]. apply IHa; [assumption | lia].
        -- destruct (IH (Some c) k) as [IHa _]. apply IHa; [assumption | lia].
      * intros Hp. rewrite Hp. simpl negb. simpl andb.
        simpl filter.
        destruct (isKeyword (c :: w)) eqn:Hk.
        -- f_equal.
           ++ change (c :: w) with (fst (c :: w, ws)).
              replace (c :: w, ws) with (splitWhen nonWord (c :: r))
                by (simpl; now rewrite Hsplit, Hc).
              apply splitWhen_first_length.
           ++ simpl pred.
              destruct (IH (Some c) (List.length w)) as [IHa _].
              apply IHa; [assumption | lia].
        -- destruct (IH (Some c) 0) as [IHa _]. apply IHa; [assumption | lia].
Qed.

Lemma filter_isKeyword_truthy (l : list jsstring) :
  filter isKeyword (filter truthy l) = filter isKeyword l.
Proof.
  induction l as [|w l IH]; simpl; [reflexivity|].
  destruct w as [|c w]; simpl; [assumption|].
  now rewrite IH.
Qed.

Lemma matchAllFrom_wholeWords (s : jsstring) :
  matchAllFrom wordPattern 0 None s = wholeWords s.
Proof.
  destruct (matchAllFrom_wordPattern s None 0) as [_ H].
  rewrite H by reflexivity.
  unfold wholeWords, runsOf.
  change (fun c => negb (isWordChar c)) with nonWord.
  symmetry. apply filter_isKeyword_truthy.
Qed.

(* ================================================================== *)
(** ** The index builder                                               *)
(* ================================================================== *)

Lemma trimStart_skip (lead x : jsstring) :
  forallb isWhiteSpace lead = true -> trimStart (lead ++ x) = trimStart x.
Proof.
  induction lead as [|c lead IH]; simpl; [reflexivity|].
  intros H. apply andb_prop in H as [Hc Hl]. rewrite Hc. auto.
Qed.

Lemma trimStart_blank (s : jsstring) :
  forallb isWhiteSpace s = true -> trimStart s = [].
Proof.
  intros H. rewrite <- (app_nil_r s). rewrite trimStart_skip by assumption.
  reflexivity.
Qed.

(** The decomposition of [trim_decompose] determines the result. *)
Lemma trim_unique (lead core trail : jsstring) :
  forallb isWhiteSpace lead = true ->
  forallb isWhiteSpace trail = true ->
  startsWithSpace core = false ->
  startsWithSpace (rev core) = false ->
  trim (lead ++ core ++ trail) = core.
Proof.
  intros Hlead Htrail Hstart Hend. unfold trim.
  rewrite trimStart_skip by assumption.
  destruct core as [|c core].
  - simpl. rewrite trimStart_blank by assumption. reflexivity.
  - rewrite trimStart_fixed by (simpl in *; assumption).
    unfold trimEnd. rewrite rev_app_distr.
    rewrite trimStart_skip by (rewrite forallb_rev; assumption).
    rewrite trimStart_fixed by assumption. apply rev_involutive.
Qed.

Lemma isWhiteSpace_listed (c : codeunit) :
  isWhiteSpace c = listed whiteSpaceUnits c.
Proof.
  unfold isWhiteSpace, listed, whiteSpaceUnits, inRange, existsb.
  repeat match goal with
         | |- context [(c =? ?k)%N] =>
             destruct (N.eqb_spec c k) as [->|]; [reflexivity|]
         end.
  cbn [orb].
  destruct (N.leb_spec 8192 c); [|reflexivity].
  destruct (N.leb_spec c 8202); [lia|reflexivity].
Qed.

Lemma forallb_isWhiteSpace_listed (s : jsstring) :
  forallb isWhiteSpace s = forallb (listed whiteSpaceUnits) s.
Proof.
  induction s as [|c s IH]; [reflexivity|].
  cbn [forallb]. now rewrite isWhiteSpace_listed, IH.
Qed.

Lemma startsWithSpace_beginsBlank (s : jsstring) :
  startsWithSpace s = beginsBlank s.
Proof. destruct s; [reflexivity | apply isWhiteSpace_listed]. Qed.

Lemma removeClass_withoutMarkup (s : jsstring) :
  removeClass isMarkup s = withoutMarkup s.
Proof.
  unfold removeClass.
  induction s as [|c s IH]; [reflexivity|].
  cbn [filter withoutMarkup]. rewrite IH.
  replace (listed markupUnits c) with (isMarkup c); [now destruct (isMarkup c)|].
  unfold isMarkup, listed, markupUnits, existsb.
  now rewrite orb_false_r, orb_assoc.
Qed.

(** The specification's trimming is what [trim] computes. *)
Lemma IsTrimOf_trim (s core : jsstring) : IsTrimOf s core <-> core = trim s.
Proof.
  split.
  - intros [lead [trail [-> [Hl [Ht [Hs He]]]]]].
    symmetry. apply trim_unique;
      rewrite ?forallb_isWhiteSpace_listed, ?startsWithSpace_beginsBlank; assumption.
  - intros ->. destruct (trim_decompose s) as [lead [trail [Heq [Hl [Ht [Hs He]]]]]].
    exists lead, trail.
    rewrite <- !forallb_isWhiteSpace_listed, <- !startsWithSpace_beginsBlank.
    repeat split; assumption.
Qed.

Lemma contentOf_bodyText (doc : Doc) : contentOf doc = bodyText (body doc).
Proof.
  unfold contentOf, strOr, bodyText.
  destruct (body doc) as [[|c text]|]; reflexivity.
Qed.

Lemma excerptOf_spec (doc : Doc) (e : jsstring) :
  IsExcerptOfBody (body doc) e <-> e = excerptOf (contentOf doc).
Proof.
  unfold IsExcerptOfBody, excerptOf, slice0.
  rewrite removeClass_withoutMarkup, contentOf_bodyText.
  split.
  - intros [core [Htrim ->]]. apply IsTrimOf_trim in Htrim. now subst core.
  - intros ->. eexists. split; [apply IsTrimOf_trim|]; reflexivity.
Qed.

Lemma trim_length (s : jsstring) : List.length (trim s) <= List.length s.
Proof.
  destruct (trim_decompose s) as [lead [trail [Heq _]]].
  rewrite Heq at 2. rewrite !length_app. lia.
Qed.

Lemma withoutMarkup_length (s : jsstring) :
  List.length (withoutMarkup s) <= List.length s.
Proof.
  rewrite <- removeClass_withoutMarkup. apply filter_length_le.
Qed.

(** C1.  The excerpt of every record, in either variant of the route, is the
    excerpt of the document's body and nothing else: the first 200 code units
    of the body without the characters [#], [*] and backtick, with the white
    space around them taken off, followed by three dots.  It has at most 203
    code units.  A body of at most 200 code units is used whole, and a
    document without a body, or with an empty one, gets the three dots. *)
Theorem excerpt_is_first_200_stripped_trimmed_with_dots :
  forall (unicodeUpper unicodeLower : jsstring -> jsstring)
         (toISOString : Date -> jsstring) (doc : Doc),
    exists excerpt,
      assoc "excerpt" (searchRecord unicodeUpper unicodeLower doc)
        = Some (VStr excerpt) /\
      assoc "excerpt" (searchRecordPlain unicodeUpper toISOString doc)
        = Some (VStr excerpt) /\
      IsExcerptOfBody (body doc) excerpt /\
      (forall e, IsExcerptOfBody (body doc) e -> e = excerpt) /\
      (exists core,
          excerpt = core ++ [46; 46; 46]%N /\ List.length core <= 200 /\
          forall c, In c core -> c <> 35%N /\ c <> 42%N /\ c <> 96%N) /\
      (forall text,
          body doc = Some text -> List.length text <= 200 ->
          exists core,
            IsTrimOf (withoutMarkup text) core /\ excerpt = core ++ [46; 46; 46]%N) /\
      (body doc = None \/ body doc = Some [] -> excerpt = [46; 46; 46]%N).
Proof.
  intros up low iso doc. exists (excerptOf (contentOf doc)).
  split; [reflexivity|]. split; [reflexivity|].
  split; [now apply excerptOf_spec|].
  split; [intros e He; now apply excerptOf_spec|].
  split.
  { exists (trim (removeClass isMarkup (slice0 200 (contentOf doc)))).
    split; [reflexivity|]. split.
    - etransitivity; [apply trim_length|].
      rewrite removeClass_withoutMarkup.
      etransitivity; [apply withoutMarkup_length|]. apply firstn_le_length.
    - intros c Hc.
      destruct (trim_decompose (removeClass isMarkup (slice0 200 (contentOf doc))))
        as [lead [trail [Heq _]]].
      assert (Hin : In c (removeClass isMarkup (slice0 200 (contentOf doc)))).
      { rewrite Heq. apply in_or_app. right. apply in_or_app. now left. }
      apply filter_In in Hin as [_ Hm]. unfold isMarkup in Hm.
      repeat split; intros ->; discriminate Hm. }
  split.
  { intros text Hbody Hlen. eexists. split; [apply IsTrimOf_trim; reflexivity|].
    unfold excerptOf, slice0. rewrite contentOf_bodyText, Hbody.
    cbn [bodyText]. rewrite firstn_all2 by assumption.
    now rewrite removeClass_withoutMarkup. }
  intros [Hb|Hb]; unfold contentOf; rewrite Hb; reflexivity.
Qed.

(** C2.  The route writes one record per document and keeps their order: the
    index is as long as the collection, its record at every position is the
    record of the document at that position, and the artifact has as many
    elements. *)
Theorem one_record_per_document :
  forall (unicodeUpper unicodeLower : jsstring -> jsstring)
         (toISOString : Date -> jsstring) (docs : list Doc),
    List.length (searchIndex unicodeUpper unicodeLower docs) = List.length docs /\
    List.length (searchIndexPlain unicodeUpper toISOString docs) = List.length docs /\
    (forall i, nth_error (searchIndex unicodeUpper unicodeLower docs) i
               = option_map (searchRecord unicodeUpper unicodeLower) (nth_error docs i)) /\
    (forall i, nth_error (searchIndexPlain unicodeUpper toISOString docs) i
               = option_map (searchRecordPlain unicodeUpper toISOString) (nth_error docs i)) /\
    List.length (elements (artifact unicodeUpper unicodeLower toISOString docs))
      = List.length docs /\
    List.length (elements (artifactPlain unicodeUpper toISOString docs))
      = List.length docs /\
    map (assoc "url") (searchIndex unicodeUpper unicodeLower docs)
      = map (fun doc => Some (VStr (lit "/" ++ slug doc))) docs.
Proof.
  intros up low iso docs. unfold searchIndex, searchIndexPlain, artifact,
    artifactPlain, stringify. simpl elements.
  rewrite !length_map. repeat split; try reflexivity;
    try (intros i; apply nth_error_map);
    try (unfold searchIndex, searchIndexPlain; apply length_map).
  rewrite map_map. reflexivity.
Qed.

Lemma stringifyRecord_searchRecord_shape
    (up low : jsstring -> jsstring) (iso : Date -> jsstring) (doc : Doc) :
  RecordShape iso true (stringifyRecord iso (searchRecord up low doc)).
Proof.
  unfold RecordShape, isJStr, searchRecord, stringifyRecord. simpl.
  repeat split; try (eexists; reflexivity).
  destruct (lastUpdated (data doc)) as [d|]; simpl.
  - right. exists d. reflexivity.
  - left. reflexivity.
Qed.

Lemma stringifyRecord_searchRecordPlain_shape
    (up : jsstring -> jsstring) (iso : Date -> jsstring) (doc : Doc) :
  RecordShape iso false (stringifyRecord iso (searchRecordPlain up iso doc)).
Proof.
  unfold RecordShape, isJStr, searchRecordPlain, stringifyRecord. simpl.
  repeat split; try (eexists; reflexivity).
  destruct (lastUpdated (data doc)) as [d|]; simpl.
  - destruct (truthy (iso d)); simpl.
    + right. exists d. reflexivity.
    + left. reflexivity.
  - left. reflexivity.
Qed.

Lemma Forall2_map_same (A B : Type) (R : A -> B -> Prop) (f : A -> B) (l : list A) :
  (forall x, R x (f x)) -> Forall2 R l (map f l).
Proof. intros H. induction l; simpl; constructor; auto. Qed.

Lemma stringifyRecord_searchRecord_of_doc
    (up low : jsstring -> jsstring) (iso : Date -> jsstring) (doc : Doc) :
  RecordOfDoc iso true doc (stringifyRecord iso (searchRecord up low doc)).
Proof.
  unfold RecordOfDoc, searchRecord, stringifyRecord, getProp.
  cbn [map fst snd assoc String.eqb Ascii.eqb Bool.eqb toJson].
  split; [reflexivity|]. split; [reflexivity|].
  split; [now destruct (category (data doc))|].
  split; [reflexivity|].
  split; [now rewrite contentOf_bodyText|].
  split.
  - exists (excerptOf (contentOf doc)). split; [now apply excerptOf_spec|].
    split; [reflexivity|].
    unfold strOr. now destruct (description (data doc)) as [[|c rest]|].
  - now destruct (lastUpdated (data doc)).
Qed.

Lemma stringifyRecord_searchRecordPlain_of_doc
    (up : jsstring -> jsstring) (iso : Date -> jsstring) (doc : Doc) :
  RecordOfDoc iso false doc (stringifyRecord iso (searchRecordPlain up iso doc)).
Proof.
  unfold RecordOfDoc, searchRecordPlain, stringifyRecord, getProp.
  cbn [map fst snd assoc String.eqb Ascii.eqb Bool.eqb toJson].
  split; [reflexivity|]. split; [reflexivity|].
  split; [now destruct (category (data doc))|].
  split; [reflexivity|].
  split; [now rewrite contentOf_bodyText|].
  split.
  - exists (excerptOf (contentOf doc)). split; [now apply excerptOf_spec|].
    split; [reflexivity|].
    unfold strOr. now destruct (description (data doc)) as [[|c rest]|].
  - destruct (lastUpdated (data doc)) as [d|]; [|reflexivity].
    cbn [option_map]. now destruct (iso d).
Qed.

(** C4, as the route has it.  Every element of the artifact is an object with
    the keys title, description, url, app, category, tags, content, excerpt,
    keywords (in the variant that computes them) and lastUpdated, in this
    order and no others; tags is an array of strings, lastUpdated is null or
    the ISO string of the document's date, and the others are strings.  The
    element at each position is the record of the document at that position:
    its content is the whole body of the document (the empty string when the
    document has none), its title, category and tags are those of the front
    matter, its url is the slug behind a slash, its excerpt is the excerpt of
    the body, its description is the front matter's or else the excerpt, and
    its lastUpdated is the ISO string of the front matter's date or null. *)
Theorem artifact_records_have_the_written_keys :
  forall (unicodeUpper unicodeLower : jsstring -> jsstring)
         (toISOString : Date -> jsstring) (docs : list Doc),
    Forall (RecordShape toISOString true)
           (elements (artifact unicodeUpper unicodeLower toISOString docs)) /\
    Forall (RecordShape toISOString false)
           (elements (artifactPlain unicodeUpper toISOString docs)) /\
    Forall2 (RecordOfDoc toISOString true) docs
            (elements (artifact unicodeUpper unicodeLower toISOString docs)) /\
    Forall2 (RecordOfDoc toISOString false) docs
            (elements (artifactPlain unicodeUpper toISOString docs)).
Proof.
  intros up low iso docs.
  unfold artifact, artifactPlain, stringify, searchIndex, searchIndexPlain.
  simpl elements. rewrite !map_map.
  split; [|split; [|split]];
    try (apply Forall_map, Forall_forall; intros doc _);
    try apply Forall2_map_same.
  - apply stringifyRecord_searchRecord_shape.
  - apply stringifyRecord_searchRecordPlain_shape.
  - intros doc. apply stringifyRecord_searchRecord_of_doc.
  - intros doc. apply stringifyRecord_searchRecordPlain_of_doc.
Qed.

(** C4, against the wording: the record of the sample document carries the
    key content, which is not among the keys the specification lists, in
    both variants of the route. *)
Lemma artifact_record_carries_content :
  let record := nth 0 (elements (artifact plainCase plainCase fixedISO [sampleDoc])) JNull in
  let recordPlain := nth 0 (elements (artifactPlain plainCase fixedISO [sampleDoc])) JNull in
  keysOf record = writtenKeys true /\
  keysOf recordPlain = writtenKeys false /\
  In "content"%string (keysOf record) /\
  In "content"%string (keysOf recordPlain) /\
  ~ In "content"%string specifiedKeys /\
  ~ KeysAsSpecified record /\
  ~ KeysAsSpecified recordPlain.
Proof.
  assert (Hno : ~ In "content"%string specifiedKeys).
  { unfold specifiedKeys. simpl. intuition discriminate. }
  cbv zeta. repeat split; try reflexivity; try assumption.
  - simpl. tauto.
  - simpl. tauto.
  - intros [Hincl _]. apply Hno, Hincl. simpl. tauto.
  - intros [Hincl _]. apply Hno, Hincl. simpl. tauto.
Qed.

Lemma contentKeywords_wholeWords (unicodeLower : jsstring -> jsstring) (content : jsstring) :
  contentKeywords unicodeLower content
  = join (lit " ") (firstn 50 (wholeWords (toLowerCase unicodeLower content))).
Proof.
  unfold contentKeywords, matchGlobal. rewrite strOr_empty.
  rewrite matchAllFrom_wholeWords.
  destruct (wholeWords (toLowerCase unicodeLower content)); reflexivity.
Qed.

Lemma splitWhen_ext (p q : codeunit -> bool) (s : jsstring) :
  (forall c, In c s -> p c = q c) -> splitWhen p s = splitWhen q s.
Proof.
  induction s as [|c r IH]; intros H; [reflexivity|].
  simpl. rewrite IH by (intros d Hd; apply H; now right).
  rewrite (H c) by now left. reflexivity.
Qed.

(** No piece of a cut contains a separator. *)
Lemma pieces_free (p : codeunit -> bool) (s : jsstring) :
  Forall (fun w => forallb (fun c => negb (p c)) w = true) (pieces p s).
Proof.
  unfold pieces. induction s as [|c r IH]; simpl.
  - repeat constructor.
  - destruct (splitWhen p r) as [w ws]. inversion IH as [|w' ws' Hw Hws]; subst.
    destruct (p c) eqn:Hc.
    + constructor; [reflexivity | now constructor].
    + constructor; [|assumption]. simpl. now rewrite Hc.
Qed.

(** On a text without digits and underscores the whole words that are
    keywords are the runs of three or more letters. *)
Lemma wholeWords_letter_runs (s : jsstring) :
  noDigitOrUnderscore s = true ->
  wholeWords s = filter (fun w => 3 <=? List.length w) (runsOf isLetter s).
Proof.
  intros Hs. unfold wholeWords, runsOf.
  assert (Hpieces : pieces (fun c => negb (isWordChar c)) s
                    = pieces (fun c => negb (isLetter c)) s).
  { unfold pieces. rewrite (splitWhen_ext (fun c => negb (isWordChar c))
                                          (fun c => negb (isLetter c))); [reflexivity|].
    intros c Hc. unfold noDigitOrUnderscore in Hs.
    rewrite forallb_forall in Hs. specialize (Hs c Hc).
    unfold isWordChar. rewrite <- orb_assoc.
    apply negb_true_iff in Hs. rewrite Hs. now rewrite orb_false_r. }
  rewrite Hpieces. apply filter_ext_in. intros w Hw.
  apply filter_In in Hw as [Hw _].
  pose proof (pieces_free (fun c => negb (isLetter c)) s) as Hfree.
  rewrite Forall_forall in Hfree. specialize (Hfree w Hw).
  unfold isKeyword. replace (forallb isLetter w) with true; [apply andb_true_r|].
  symmetry. rewrite <- Hfree. clear.
  induction w as [|c w IH]; simpl; [reflexivity|].
  now rewrite negb_involutive, IH.
Qed.

(** C5, as the route has it.  The keywords of a record are the first fifty
    whole words of the lower-cased body that have three or more characters,
    all of them letters, joined by single spaces (the empty string when there
    is none); a word is a maximal run of letters, digits and underscores, so
    that letters next to a digit or an underscore are not taken.  On a body
    without digits and underscores these are the runs of three or more
    letters. *)
Theorem keywords_are_the_first_50_whole_letter_words :
  forall (unicodeUpper unicodeLower : jsstring -> jsstring) (doc : Doc),
    let content := contentOf doc in
    assoc "keywords" (searchRecord unicodeUpper unicodeLower doc)
      = Some (VStr (contentKeywords unicodeLower content)) /\
    contentKeywords unicodeLower content
      = join (lit " ") (firstn 50 (wholeWords (toLowerCase unicodeLower content))) /\
    (noDigitOrUnderscore (toLowerCase unicodeLower content) = true ->
     contentKeywords unicodeLower content
       = keywordsAsSpecified (toLowerCase unicodeLower content)) /\
    contentKeywords unicodeLower [] = [].
Proof.
  intros up low doc content. split; [reflexivity|].
  split; [apply contentKeywords_wholeWords|]. split; [|reflexivity].
  intros Hplain. rewrite contentKeywords_wholeWords. unfold keywordsAsSpecified.
  now rewrite wholeWords_letter_runs.
Qed.

(** C5, against the wording: in [Install node_modules with npm] the runs of
    three or more letters are install, node, modules, with and npm, but the
    route keeps install, with and npm only. *)
Lemma keywords_leave_out_letters_next_to_underscore :
  let body := lit "Install node_modules with npm" in
  keywordsAsSpecified (toLowerCase plainCase body) = lit "install node modules with npm" /\
  contentKeywords plainCase body = lit "install with npm" /\
  contentKeywords plainCase body <> keywordsAsSpecified (toLowerCase plainCase body).
Proof.
  cbv zeta. split; [vm_compute; reflexivity|]. split; [vm_compute; reflexivity|].
  vm_compute. discriminate.
Qed.

Lemma toUpperCase_nil (unicodeUpper : jsstring -> jsstring) :
  toUpperCase unicodeUpper [] = [].
Proof. reflexivity. Qed.

Lemma appNameOf_pass (unicodeUpper : jsstring -> jsstring) (s : jsstring) :
  forall atStart : bool,
    capitalizeWords (toUpperCase unicodeUpper) atStart s =
    let (w, ws) := splitWhen (fun c => (c =? 45)%N) s in
    join (lit " ")
         ((if atStart then capitalize unicodeUpper w else w)
          :: map (capitalize unicodeUpper) ws).
Proof.
  induction s as [|c r IH]; intros atStart.
  - simpl. destruct atStart; reflexivity.
  - simpl capitalizeWords. simpl splitWhen.
    destruct (splitWhen (fun c0 => (c0 =? 45)%N) r) as [w ws] eqn:Hsplit.
    destruct (c =? 45)%N.
    + rewrite (IH true). simpl map. rewrite join_cons2.
      destruct atStart; reflexivity.
    + rewrite (IH false).
      destruct atStart.
      * unfold capitalize at 2. simpl charAt0. simpl sliceFrom1.
        rewrite join_head. reflexivity.
      * change (c :: w) with ([c] ++ w). rewrite join_head. reflexivity.
Qed.

Lemma capitalizeSpaced_hyphens (upper : jsstring -> jsstring) (s : jsstring) :
  hasSpace s = false ->
  forall atStart : bool,
    capitalizeSpaced upper atStart (hyphensToSpaces s) = capitalizeWords upper atStart s.
Proof.
  induction s as [|c r IH]; intros Hs atStart; [reflexivity|].
  unfold hasSpace in Hs. simpl in Hs. apply orb_false_elim in Hs as [Hc Hr].
  simpl. destruct (N.eqb_spec c 45) as [->|Hne].
  - simpl. now rewrite IH.
  - rewrite Hc. now rewrite IH.
Qed.

(** C6.  The app of a record is the display name of the first segment of the
    slug, and the display name of any segment is the segment with every
    hyphen replaced by a space and every word between them capitalized;
    application-one gives Application One and application-two gives
    Application Two.  For a segment without a space of its own it makes no
    difference whether the words are capitalized before or after the hyphens
    are replaced. *)
Theorem display_name_replaces_hyphens_and_capitalizes :
  forall (unicodeUpper unicodeLower : jsstring -> jsstring)
         (toISOString : Date -> jsstring) (doc : Doc),
    assoc "app" (searchRecord unicodeUpper unicodeLower doc)
      = Some (VStr (appNameOf unicodeUpper (appSegment (slug doc)))) /\
    assoc "app" (searchRecordPlain unicodeUpper toISOString doc)
      = Some (VStr (appNameOf unicodeUpper (appSegment (slug doc)))) /\
    (forall segment,
       appNameOf unicodeUpper segment
       = displayNameAsSpecified (toUpperCase unicodeUpper) segment) /\
    (forall segment,
       hasSpace segment = false ->
       appNameOf unicodeUpper segment
       = capitalizeSpaced (toUpperCase unicodeUpper) true (hyphensToSpaces segment)) /\
    appNameOf unicodeUpper (lit "application-one") = lit "Application One" /\
    appNameOf unicodeUpper (lit "application-two") = lit "Application Two".
Proof.
  intros up low iso doc.
  assert (Hpass : forall segment,
             appNameOf up segment = displayNameAsSpecified (toUpperCase up) segment).
  { intros segment. unfold displayNameAsSpecified.
    rewrite appNameOf_pass. unfold appNameOf, split, pieces.
    destruct (splitWhen (fun c => (c =? 45)%N) segment). reflexivity. }
  split; [reflexivity|]. split; [reflexivity|]. split; [exact Hpass|].
  split; [|split; reflexivity].
  intros segment Hs. rewrite Hpass. unfold displayNameAsSpecified.
  symmetry. now apply capitalizeSpaced_hyphens.
Qed.

(* ================================================================== *)
(** ** The options of the match engine                                 *)
(* ================================================================== *)

(** C7, as the script has it.  The keys are title, tags, description,
    keywords, app and category, and their weights never increase along that
    order: title weighs more than tags, tags more than description,
    description more than keywords, keywords the same as app, and app more
    than category. *)
Theorem weights_decrease_except_keywords_and_app :
  map SearchBox.name (SearchBox.keys SearchBox.options)
    = [ "title"; "tags"; "description"; "keywords"; "app"; "category" ]%string /\
  nonIncreasing (map SearchBox.weight (SearchBox.keys SearchBox.options)) /\
  exists title tags description keywords app category : Q,
    weightOf SearchBox.options "title" = Some title /\
    weightOf SearchBox.options "tags" = Some tags /\
    weightOf SearchBox.options "description" = Some description /\
    weightOf SearchBox.options "keywords" = Some keywords /\
    weightOf SearchBox.options "app" = Some app /\
    weightOf SearchBox.options "category" = Some category /\
    (tags < title)%Q /\ (description < tags)%Q /\ (keywords < description)%Q /\
    (app == keywords)%Q /\ (category < app)%Q.
Proof.
  split; [reflexivity|]. split.
  - unfold nonIncreasing. simpl. unfold Qle. simpl. repeat split; lia.
  - do 6 eexists. repeat split; try reflexivity.
Qed.

(** C7, against the wording: the weights are 0.3, 0.25, 0.2, 0.1, 0.1 and
    0.05; keywords and app both weigh 0.1, so the weights are not strictly
    decreasing. *)
Lemma keywords_and_app_weigh_the_same :
  map SearchBox.weight (SearchBox.keys SearchBox.options)
    = [0.3; 0.25; 0.2; 0.1; 0.1; 0.05]%Q /\
  weightOf SearchBox.options "keywords" = Some 0.1%Q /\
  weightOf SearchBox.options "app" = Some 0.1%Q /\
  ~ strictlyDecreasing (map SearchBox.weight (SearchBox.keys SearchBox.options)).
Proof.
  repeat split; try reflexivity.
  unfold strictlyDecreasing. simpl. unfold Qlt. simpl. lia.
Qed.

(* ================================================================== *)
(** ** The search box                                                  *)
(* ================================================================== *)

Import SearchBox.

Ltac run_script :=
  unfold search, onFocus, onInput, onClick, onKeyDown, listener, fuseSearch,
    displayResults, hideResults, consoleLog, clearTimeout, setTimeout, newFuse,
    tryCatch, bind, get, modify, ret, throw, await.

(** What [search] does to a page: it completes, leaves timers, clock and
    variables alone, asks the engine only when there is one and the query is
    not blank, and otherwise hides the panel. *)
Lemma search_effect (query : jsstring) (p : Page) :
  exists p',
    search query p = (Normal tt, p') /\
    timers p' = timers p /\ searchTimeout p' = searchTimeout p /\
    nextTimerId p' = nextTimerId p /\ clock p' = clock p /\
    fuse p' = fuse p /\ uncaught p' = uncaught p /\
    inputValue p' = inputValue p /\
    engineCalls p' = engineCalls p ++ invokes p query /\
    resultsShown p' =
      (if isReady p && truthy (trim query)
       then (if hasPanel p then true else resultsShown p) else false) /\
    dropdownHidden p' =
      (if isReady p && truthy (trim query)
       then (if hasPanel p then Some false else dropdownHidden p)
       else option_map (fun _ => true) (dropdownHidden p)).
Proof.
  unfold invokes, isReady, hasPanel, resultsShown. run_script.
  destruct (fuse p) as [engine|] eqn:Hfuse;
    [destruct (truthy (trim query)) eqn:Hq|]; simpl;
    destruct (resultsContent p) as [content|] eqn:Hc;
    destruct (dropdownHidden p) as [hidden|] eqn:Hd; simpl;
    eexists; (split; [reflexivity|]); simpl;
    rewrite ?Hfuse, ?Hd, ?Hc, ?app_nil_r; repeat split; reflexivity.
Qed.

Lemma runTask_search (query : jsstring) (p : Page) :
  exists p',
    runTask (search query) p = p' /\ search query p = (Normal tt, p').
Proof.
  destruct (search_effect query p) as [p' [H _]].
  exists p'. split; [|assumption]. unfold runTask. now rewrite H.
Qed.

(** Without an engine [search] only hides the panel. *)
Lemma search_silent (query : jsstring) (p : Page) :
  Silent p -> exists p', search query p = (Normal tt, p') /\ Silent p'.
Proof.
  intros [Hf [He [Hd Hu]]].
  destruct (search_effect query p)
    as [p' [Hrun [_ [_ [_ [_ [Hf' [Hu' [_ [He' [_ Hd']]]]]]]]]]].
  exists p'. split; [assumption|].
  unfold invokes, isReady in *. rewrite Hf in *. simpl in *.
  rewrite app_nil_r in He'. rewrite Hd in Hd'. simpl in Hd'.
  unfold Silent. repeat split; congruence.
Qed.

Lemma runTask_normal (c : M unit) (p p' : Page) :
  c p = (Normal tt, p') -> runTask c p = p'.
Proof. unfold runTask. now intros ->. Qed.

Lemma cancel_own (timer : Timer) : cancel (timerId timer) [timer] = [].
Proof. unfold cancel. simpl. now rewrite Nat.eqb_refl. Qed.

(** Firing keeps a silent page silent. *)
Lemma fire_silent (ready : list Timer) :
  forall p, Silent p -> Silent (fire ready p).
Proof.
  induction ready as [|timer rest IH]; intros p Hp; simpl; [assumption|].
  apply IH.
  destruct (@search_silent (pendingQuery timer)
              (setTimers (cancel (timerId timer) (timers p)) p)) as [p' [Hrun Hs]].
  { destruct Hp as [Hf [He [Hd Hu]]]. unfold Silent. simpl. auto. }
  now rewrite (runTask_normal _ _ Hrun).
Qed.

Lemma advanceTo_silent (t : N) (p : Page) : Silent p -> Silent (advanceTo t p).
Proof.
  intros Hp. unfold advanceTo.
  destruct (fire_silent (filter (isDue t) (timers p)) Hp) as [Hf [He [Hd Hu]]].
  unfold Silent. simpl. auto.
Qed.

Lemma listener_silent (e : UserEvent) (p : Page) :
  Silent p -> exists p', listener e p = (Normal tt, p') /\ Silent p'.
Proof.
  intros Hp. destruct e as [value| |inInput inResults|key].
  - destruct Hp as [Hf [He [Hd Hu]]]. run_script. unfold Silent.
    destruct p as [F index engine pending]; simpl in *.
    destruct pending; simpl; eexists; (split; [reflexivity|]); simpl; auto.
  - unfold listener, onFocus. unfold bind at 1. unfold modify at 1.
    unfold bind at 1. unfold get at 1.
    change (inputValue (setInputFocused true p)) with (inputValue p).
    destruct (truthy (trim (inputValue p))).
    + apply search_silent. destruct Hp as [Hf [He [Hd Hu]]].
      unfold Silent. simpl. auto.
    + eexists. split; [reflexivity|]. destruct Hp as [Hf [He [Hd Hu]]].
      unfold Silent. simpl. auto.
  - unfold Silent in *. destruct p; simpl in *.
    destruct Hp as [Hf [He [Hd Hu]]]. subst. run_script. simpl.
    destruct (negb inInput && negb inResults); simpl;
      eexists; (split; [reflexivity|]); simpl; auto.
  - unfold Silent in *. destruct p; simpl in *.
    destruct Hp as [Hf [He [Hd Hu]]]. subst. destruct key; run_script; simpl;
      eexists; (split; [reflexivity|]); simpl; auto.
Qed.

Lemma userStep_silent (t : N) (e : UserEvent) (p : Page) :
  Silent p -> Silent (userStep t e p).
Proof.
  intros Hp. unfold userStep.
  destruct (listener_silent e (advanceTo_silent t Hp)) as [p' [Hrun Hs]].
  now rewrite (runTask_normal _ _ Hrun).
Qed.

Lemma runUser_silent (events : list (N * UserEvent)) :
  forall p, Silent p -> Silent (runUser events p).
Proof.
  induction events as [|[t e] rest IH]; intros p Hp; simpl; [assumption|].
  apply IH, userStep_silent, Hp.
Qed.

(** [initializeSearch] catches whatever its body throws. *)
Lemma initializeSearch_completes (env : InitEnv) (p : Page) :
  exists p',
    initializeSearch env p = (Normal tt, p') /\
    timers p' = timers p /\ searchTimeout p' = searchTimeout p /\
    uncaught p' = uncaught p /\ engineCalls p' = engineCalls p /\
    dropdownHidden p' = dropdownHidden p.
Proof.
  unfold initializeSearch. run_script.
  destruct env as [[F|e1] [[st [index|e3]]|e2]]; simpl;
    try (destruct (ok {| status := st; json := _ |})); simpl;
    try (destruct index as [records| |n]; simpl;
         try (destruct (F _ options) as [engine|e4]; simpl));
    eexists; (split; [reflexivity|]); simpl; repeat split; reflexivity.
Qed.

(** A response that is not ok leaves the engine unconstructed and the status
    in the console. *)
Lemma initializeSearch_not_ok (F : FuseClass) (response : Response) (p : Page) :
  ok response = false ->
  exists p',
    initializeSearch {| importFuse := Normal F; fetchIndex := Normal response |} p
      = (Normal tt, p') /\
    fuse p' = fuse p /\
    console p' = console p ++ [LogError (HttpError (status response))].
Proof.
  intros Hok. unfold initializeSearch. run_script. simpl. rewrite Hok. simpl.
  eexists. split; [reflexivity|]. simpl. split; reflexivity.
Qed.

Lemma loadedPage_silent : Silent loadedPage.
Proof. unfold Silent. repeat split; reflexivity. Qed.

(** C3, as the script has it.  A query whose trimmed form is empty never
    reaches the engine and always leaves the results panel hidden, whatever
    the state of the page. *)
Theorem blank_query_hides_results_without_engine :
  forall (query : jsstring) (p : Page),
    List.length (trim query) = 0 ->
    exists p',
      search query p = (Normal tt, p') /\
      engineCalls p' = engineCalls p /\
      resultsShown p' = false /\
      dropdownHidden p' = option_map (fun _ => true) (dropdownHidden p).
Proof.
  intros query p Hlen.
  assert (Hq : truthy (trim query) = false) by (destruct (trim query); [reflexivity | discriminate]).
  destruct (search_effect query p)
    as [p' [Hrun [_ [_ [_ [_ [_ [_ [_ [He [Hs Hd]]]]]]]]]]].
  exists p'. unfold invokes in He.
  rewrite Hq, andb_false_r in *. rewrite app_nil_r in He. auto.
Qed.

Lemma blank_query_on_ready_page :
  List.length (trim (lit "   ")) = 0 /\
  exists p',
    search (lit "   ") readyPage = (Normal tt, p') /\
    engineCalls p' = engineCalls readyPage /\
    resultsShown p' = false /\
    dropdownHidden p' = option_map (fun _ => true) (dropdownHidden readyPage).
Proof.
  split; [reflexivity|].
  apply (blank_query_hides_results_without_engine (lit "   ") readyPage).
  reflexivity.
Defined.

(** C3, against the wording: on a page whose engine is ready, the query [a],
    of trimmed length 1, is handed to the engine, and the panel is shown (with
    the message that nothing was found, as this engine finds nothing). *)
Lemma one_letter_query_reaches_engine :
  let p := runTask (search (lit "a")) readyPage in
  List.length (trim (lit "a")) = 1 /\
  isReady readyPage = true /\
  engineCalls readyPage = [] /\
  engineCalls p = [lit "a"] /\
  resultsShown p = true /\
  resultsContent p = Some NoResultsFound.
Proof.
  cbv zeta. repeat split; vm_compute; reflexivity.
Qed.

(** C8.  When the response to the fetch of the index is not ok, the
    initialisation completes without an exception and notes the status in the
    console; whatever the user did before and does after, the engine is never
    constructed and never called, the results panel stays hidden, no
    exception escapes any listener or timer, and every call of [search]
    completes and leaves the panel hidden. *)
Theorem failed_fetch_leaves_search_silent :
  forall (F : FuseClass) (response : Response) (t : N)
         (before after : list (N * UserEvent)),
    ok response = false ->
    let env := {| importFuse := Normal F; fetchIndex := Normal response |} in
    let loading := runUser before loadedPage in
    let failed := initSettles t env loading in
    let p := runUser after failed in
    (exists p1, initializeSearch env (advanceTo t loading) = (Normal tt, p1)) /\
    In (LogError (HttpError (status response))) (console failed) /\
    fuse p = None /\
    engineCalls p = [] /\
    resultsShown p = false /\
    uncaught p = [] /\
    (forall query, exists p',
        search query p = (Normal tt, p') /\
        fuse p' = None /\ engineCalls p' = [] /\ resultsShown p' = false).
Proof.
  intros F response t before after Hok env loading failed p.
  assert (Hloading : Silent (advanceTo t loading)).
  { apply advanceTo_silent, runUser_silent, loadedPage_silent. }
  destruct (@initializeSearch_not_ok F response (advanceTo t loading) Hok)
    as [p1 [Hrun [Hfuse Hlog]]].
  destruct (initializeSearch_completes env (advanceTo t loading))
    as [p1' [Hrun' [_ [_ [Hu [He Hd]]]]]].
  assert (p1' = p1) by (unfold env in Hrun'; congruence). subst p1'.
  assert (Hfailed : failed = p1).
  { unfold failed, initSettles. now apply runTask_normal. }
  assert (Hsilent1 : Silent p1).
  { destruct Hloading as [Hf0 [He0 [Hd0 Hu0]]].
    unfold Silent. repeat split; congruence. }
  assert (Hp : Silent p).
  { unfold p. apply runUser_silent. now rewrite Hfailed. }
  split; [now exists p1|].
  split; [rewrite Hfailed, Hlog; apply in_or_app; right; left; reflexivity|].
  destruct Hp as [Hf [He' [Hd' Hu']]].
  repeat split; try assumption.
  - unfold resultsShown. now rewrite Hd'.
  - intros query.
    destruct (@search_silent query p) as [p' [Hq [Hf2 [He2 [Hd2 _]]]]].
    { unfold Silent. auto. }
    exists p'. repeat split; try assumption.
    unfold resultsShown. now rewrite Hd2.
Qed.

Lemma server_error_leaves_search_silent :
  let response := {| status := 500%N; json := Throw SyntaxError |} in
  let before := [(10%N, Input (lit "gu"))] in
  let after := [(400%N, Input (lit "guide")); (900%N, Focus);
                (1500%N, KeyDown Escape)] in
  ok response = false /\
  let p := runUser after
             (initSettles 200 {| importFuse := Normal silentFuse;
                                 fetchIndex := Normal response |}
                (runUser before loadedPage)) in
  fuse p = None /\
  engineCalls p = [] /\
  resultsShown p = false /\
  uncaught p = [] /\
  (forall query, exists p',
      search query p = (Normal tt, p') /\
      fuse p' = None /\ engineCalls p' = [] /\ resultsShown p' = false).
Proof.
  cbv zeta. split; [reflexivity|].
  pose proof (@failed_fetch_leaves_search_silent silentFuse
           {| status := 500%N; json := Throw SyntaxError |} 200
           [(10%N, Input (lit "gu"))]
           [(400%N, Input (lit "guide")); (900%N, Focus); (1500%N, KeyDown Escape)]
           eq_refl) as H.
  cbv zeta in H. destruct H as [_ [_ H]]. exact H.
Defined.

(** C10, as the script has it.  A focus event on an input whose value is not
    blank runs [search] on that value within the listener itself: no timer is
    set, cleared or awaited and the clock does not move.  The engine is called
    with the value when it has been constructed; before that, and after a
    failed initialisation, it is not called and the panel is hidden. *)
Theorem focus_runs_query_at_once :
  forall p : Page,
    truthy (trim (inputValue p)) = true ->
    exists p',
      listener Focus p = (Normal tt, p') /\
      timers p' = timers p /\
      searchTimeout p' = searchTimeout p /\
      clock p' = clock p /\
      engineCalls p' = engineCalls p ++ (if isReady p then [inputValue p] else []) /\
      resultsShown p' =
        (if isReady p then (if hasPanel p then true else resultsShown p) else false).
Proof.
  intros p Hvalue.
  unfold listener, onFocus. unfold bind at 1. unfold modify at 1.
  unfold bind at 1. unfold get at 1.
  change (inputValue (setInputFocused true p)) with (inputValue p).
  rewrite Hvalue.
  destruct (search_effect (inputValue p) (setInputFocused true p))
    as [p' [Hrun [Ht [Hs [_ [Hc [_ [_ [_ [He [Hshown _]]]]]]]]]]].
  exists p'. split; [assumption|].
  unfold invokes in He.
  change (isReady (setInputFocused true p)) with (isReady p) in *.
  change (hasPanel (setInputFocused true p)) with (hasPanel p) in *.
  rewrite Hvalue, andb_true_r in *.
  repeat split; assumption.
Qed.

Lemma focus_on_ready_page_searches :
  let p := runUser [(100%N, Input (lit "guide"))] readyPage in
  truthy (trim (inputValue p)) = true /\
  exists p',
    listener Focus p = (Normal tt, p') /\
    timers p' = timers p /\
    searchTimeout p' = searchTimeout p /\
    clock p' = clock p /\
    engineCalls p' = engineCalls p ++ (if isReady p then [inputValue p] else []) /\
    resultsShown p' =
      (if isReady p then (if hasPanel p then true else resultsShown p) else false).
Proof.
  cbv zeta. split; [reflexivity|].
  apply (@focus_runs_query_at_once (runUser [(100%N, Input (lit "guide"))] readyPage)).
  reflexivity.
Defined.

(** C10, against the wording: while the index is still being fetched the
    input holds [guide]; a focus event then calls no engine, as there is none
    yet, and leaves the panel hidden. *)
Lemma focus_before_engine_is_ready_calls_nothing :
  let p := runUser [(10%N, Input (lit "guide"))] loadedPage in
  let p' := userStep 20 Focus p in
  truthy (trim (inputValue p)) = true /\
  isReady p = false /\
  engineCalls p' = [] /\
  resultsShown p' = false.
Proof.
  cbv zeta. repeat split; vm_compute; reflexivity.
Qed.

(* ------------------------------------------------------------------ *)
(** *** The timer of the input listener                                *)
(* ------------------------------------------------------------------ *)

Lemma onInput_effect (value : jsstring) (p : Page) :
  timersOk p ->
  exists p',
    onInput value p = (Normal tt, p') /\
    timers p' = [ {| timerId := nextTimerId p; due := (clock p + 300)%N;
                     pendingQuery := value |} ] /\
    searchTimeout p' = Some (nextTimerId p) /\
    clock p' = clock p /\ fuse p' = fuse p /\
    engineCalls p' = engineCalls p.
Proof.
  intros Hok. unfold timersOk in Hok. run_script.
  destruct p as [F index engine pending value0 focused hidden content time table next log calls errors].
  simpl in *.
  destruct Hok as [Htable | [timer [Htable Hpending]]]; subst.
  - destruct pending; simpl; eexists; (split; [reflexivity|]); simpl;
      repeat split; reflexivity.
  - simpl. rewrite cancel_own. simpl.
    eexists. split; [reflexivity|]. simpl. repeat split; reflexivity.
Qed.

Lemma advanceTo_idle (t : N) (p : Page) :
  Forall (fun timer => (t < due timer)%N) (timers p) ->
  advanceTo t p = setClock (N.max (clock p) t) p.
Proof.
  intros Hlate. unfold advanceTo.
  replace (filter (isDue t) (timers p)) with (@nil Timer); [reflexivity|].
  symmetry. induction Hlate as [|timer rest Hlt _ IH]; simpl; [reflexivity|].
  unfold isDue at 1. destruct (N.leb_spec (due timer) t); [lia | assumption].
Qed.

Lemma advanceTo_single (t : N) (p : Page) (timer : Timer) :
  timers p = [timer] ->
  (due timer <= t)%N ->
  advanceTo t p =
  setClock (N.max (clock p) t)
           (runTask (search (pendingQuery timer)) (setTimers [] p)).
Proof.
  intros Htable Hdue. unfold advanceTo. rewrite Htable. simpl filter.
  unfold isDue. destruct (N.leb_spec (due timer) t); [|lia].
  simpl fire. now rewrite Htable, cancel_own.
Qed.

Lemma timersOk_frame (p p' : Page) :
  timers p' = timers p -> searchTimeout p' = searchTimeout p ->
  timersOk p -> timersOk p'.
Proof.
  unfold timersOk. intros -> ->. tauto.
Qed.

Lemma timersOk_length (p : Page) : timersOk p -> List.length (timers p) <= 1.
Proof.
  intros [H | [timer [H _]]]; rewrite H; simpl; lia.
Qed.

Lemma advanceTo_timersOk (t : N) (p : Page) : timersOk p -> timersOk (advanceTo t p).
Proof.
  intros Hok. destruct Hok as [Hnone | [timer [Hone Hpending]]].
  - rewrite advanceTo_idle by (rewrite Hnone; constructor).
    left. exact Hnone.
  - destruct (N.leb_spec (due timer) t) as [Hdue | Hlate].
    + rewrite (advanceTo_single p Hone Hdue).
      destruct (runTask_search (pendingQuery timer) (setTimers [] p)) as [p' [-> Hrun]].
      destruct (search_effect (pendingQuery timer) (setTimers [] p))
        as [p'' [Hrun' [Ht _]]].
      assert (p'' = p') by congruence. subst p''.
      left. simpl. exact Ht.
    + rewrite advanceTo_idle by (rewrite Hone; repeat constructor; assumption).
      right. exists timer. auto.
Qed.

Lemma listener_timersOk (e : UserEvent) (p : Page) :
  timersOk p -> timersOk (runTask (listener e) p).
Proof.
  intros Hok. destruct e as [value| |inInput inResults|key].
  - destruct (onInput_effect value Hok) as [p' [Hrun [Ht [Hs _]]]].
    simpl listener. rewrite (runTask_normal _ _ Hrun).
    right. eexists. split; [exact Ht | exact Hs].
  - simpl listener. unfold onFocus, runTask. unfold bind at 1. unfold modify at 1.
    unfold bind at 1. unfold get at 1.
    destruct (truthy (trim (inputValue (setInputFocused true p)))).
    + destruct (search_effect (inputValue (setInputFocused true p)) (setInputFocused true p))
        as [p' [Hrun [Ht [Hs _]]]].
      rewrite Hrun. apply (timersOk_frame (p := p)); assumption.
    + simpl. apply (timersOk_frame (p := p)); [reflexivity | reflexivity | assumption].
  - simpl listener. unfold runTask. run_script.
    destruct (dropdownHidden p) eqn:Hd;
      destruct (negb inInput && negb _); simpl; rewrite ?Hd;
      apply (timersOk_frame (p := p)); try reflexivity; assumption.
  - simpl listener. unfold runTask. destruct key; run_script; simpl;
      [destruct (dropdownHidden p)|];
      apply (timersOk_frame (p := p)); try reflexivity; assumption.
Qed.

Lemma userStep_timersOk (t : N) (e : UserEvent) (p : Page) :
  timersOk p -> timersOk (userStep t e p).
Proof.
  intros Hok. unfold userStep. now apply listener_timersOk, advanceTo_timersOk.
Qed.

(** At most one timer is pending in every state the page goes through. *)
Lemma reachable_timersOk (p : Page) : Reachable p -> timersOk p.
Proof.
  induction 1 as [|t e p _ IH|t p _ IH|t env p _ IH].
  - left. reflexivity.
  - now apply userStep_timersOk.
  - now apply advanceTo_timersOk.
  - unfold initSettles.
    destruct (initializeSearch_completes env (advanceTo t p))
      as [p' [Hrun [Ht [Hs _]]]].
    rewrite (runTask_normal _ _ Hrun).
    apply (timersOk_frame (p := advanceTo t p)); try assumption.
    now apply advanceTo_timersOk.
Qed.

Lemma runUser_reachable (events : list (N * UserEvent)) :
  forall p, Reachable p -> Reachable (runUser events p).
Proof.
  induction events as [|[t e] rest IH]; intros p Hp; simpl; [assumption|].
  apply IH. now constructor.
Qed.

Lemma last_cons {A : Type} (a d : A) (l : list A) : last (a :: l) d = last l a.
Proof.
  revert a d. induction l as [|b l IH]; intros a d; [reflexivity|].
  change (last (a :: b :: l) d) with (last (b :: l) d).
  now rewrite (IH b d), (IH b a).
Qed.

(** One more keystroke at time [t], when no timer is due by then: the pending
    timer, if any, is replaced by one for the new text. *)
Lemma keystroke_effect (t : N) (value : jsstring) (p : Page) :
  timersOk p ->
  Forall (fun timer => (t < due timer)%N) (timers p) ->
  (clock p <= t)%N ->
  exists timer,
    timers (userStep t (Input value) p) = [timer] /\
    due timer = (t + 300)%N /\
    pendingQuery timer = value /\
    searchTimeout (userStep t (Input value) p) = Some (timerId timer) /\
    clock (userStep t (Input value) p) = t /\
    engineCalls (userStep t (Input value) p) = engineCalls p /\
    fuse (userStep t (Input value) p) = fuse p.
Proof.
  intros Hok Hlate Hclock. unfold userStep.
  rewrite (advanceTo_idle p Hlate).
  assert (Hok1 : timersOk (setClock (N.max (clock p) t) p)).
  { apply (timersOk_frame (p := p)); [reflexivity | reflexivity | assumption]. }
  destruct (onInput_effect value Hok1) as [p' [Hrun [Ht [Hs [Hc [Hf He]]]]]].
  simpl listener. rewrite (runTask_normal _ _ Hrun).
  eexists. split; [exact Ht|]. simpl in *.
  rewrite Hc. rewrite N.max_r by assumption.
  repeat split; assumption.
Qed.

(** The rest of a burst: the timer is replaced at every keystroke and never
    fires, as each keystroke comes before it is due. *)
Lemma typing_burst (rest : list (N * jsstring)) :
  forall (p : Page) (t : N) (value : jsstring) (timer : Timer),
    timers p = [timer] ->
    due timer = (t + 300)%N ->
    pendingQuery timer = value ->
    searchTimeout p = Some (timerId timer) ->
    clock p = t ->
    withinWindow t rest ->
    exists timer',
      timers (runUser (typing rest) p) = [timer'] /\
      due timer' = (fst (last rest (t, value)) + 300)%N /\
      pendingQuery timer' = snd (last rest (t, value)) /\
      engineCalls (runUser (typing rest) p) = engineCalls p /\
      fuse (runUser (typing rest) p) = fuse p.
Proof.
  induction rest as [|[t' value'] rest IH];
    intros p t value timer Htable Hdue Hquery Hpending Hclock Hwindow.
  - exists timer. simpl. auto.
  - destruct Hwindow as [[Hle Hlt] Hrest].
    destruct (@keystroke_effect t' value' p) as [timer1 [Ht [Hd [Hq [Hs [Hc [He Hf]]]]]]].
    + right. exists timer. auto.
    + rewrite Htable. repeat constructor. rewrite Hdue. exact Hlt.
    + rewrite Hclock. exact Hle.
    + destruct (IH (userStep t' (Input value') p) t' value' timer1 Ht Hd Hq Hs Hc Hrest)
        as [timer' [Ht' [Hd' [Hq' [He' Hf']]]]].
      exists timer'. rewrite last_cons. simpl typing. simpl runUser. simpl fst in *.
      repeat split; try assumption; congruence.
Qed.

(** C9, as the script has it.  In a burst of keystrokes, each less than 300ms
    after the one before, every keystroke cancels the timer of the one
    before, so that at most one timer is pending at any time; once 300ms have
    passed after the last keystroke that timer has fired, once, with the text
    of the last keystroke.  The engine is then called exactly once, with that
    text, if it has been constructed and the text is not blank, and not at
    all otherwise. *)
Theorem burst_of_keystrokes_runs_the_last_query_once :
  forall (p : Page) (t1 : N) (v1 : jsstring) (rest : list (N * jsstring)) (T : N),
    Reachable p ->
    (clock p <= t1)%N ->
    Forall (fun timer => (t1 < due timer)%N) (timers p) ->
    withinWindow t1 rest ->
    let keystrokes := (t1, v1) :: rest in
    let final := last keystrokes (t1, v1) in
    (fst final + 300 <= T)%N ->
    let typed := runUser (typing keystrokes) p in
    let settled := advanceTo T typed in
    (forall n, List.length (timers (runUser (firstn n (typing keystrokes)) p)) <= 1) /\
    (exists timer, timers typed = [timer] /\
                   due timer = (fst final + 300)%N /\
                   pendingQuery timer = snd final) /\
    engineCalls typed = engineCalls p /\
    timers settled = [] /\
    engineCalls settled = engineCalls p ++ invokes p (snd final).
Proof.
  intros p t1 v1 rest T Hreach Hclock Hlate Hwindow keystrokes final HT typed settled.
  split.
  { intros n. apply timersOk_length, reachable_timersOk, runUser_reachable, Hreach. }
  destruct (@keystroke_effect t1 v1 p (reachable_timersOk Hreach) Hlate Hclock)
    as [timer1 [Ht [Hd [Hq [Hs [Hc [He Hf]]]]]]].
  destruct (typing_burst rest (userStep t1 (Input v1) p) Ht Hd Hq Hs Hc Hwindow)
    as [timer [Ht' [Hd' [Hq' [He' Hf']]]]].
  assert (Hfinal : final = last rest (t1, v1)) by apply last_cons.
  change (runUser (typing rest) (userStep t1 (Input v1) p)) with typed in *.
  rewrite <- Hfinal in *.
  split; [exists timer; auto|].
  split; [congruence|].
  assert (Hdue : (due timer <= T)%N) by (rewrite Hd'; exact HT).
  unfold settled. rewrite (advanceTo_single typed Ht' Hdue).
  destruct (runTask_search (pendingQuery timer) (setTimers [] typed)) as [p' [-> Hrun]].
  destruct (search_effect (pendingQuery timer) (setTimers [] typed))
    as [p'' [Hrun' [Htimers [_ [_ [_ [_ [_ [_ [Hcalls _]]]]]]]]]].
  assert (p'' = p') by congruence. subst p''.
  simpl. split; [exact Htimers|].
  rewrite Hcalls. simpl engineCalls. rewrite He', He, Hq'.
  unfold invokes, isReady. simpl fuse. now rewrite Hf', Hf.
Qed.

Lemma burst_on_ready_page_searches_once :
  let keystrokes := [(1000%N, lit "g"); (1100%N, lit "gu"); (1250%N, lit "gui")] in
  (clock readyPage <= 1000)%N /\
  Forall (fun timer => (1000 < due timer)%N) (timers readyPage) /\
  withinWindow 1000 [(1100%N, lit "gu"); (1250%N, lit "gui")] /\
  (1250 + 300 <= 1600)%N /\
  timers (advanceTo 1600 (runUser (typing keystrokes) readyPage)) = [] /\
  engineCalls (advanceTo 1600 (runUser (typing keystrokes) readyPage))
    = engineCalls readyPage ++ invokes readyPage (lit "gui").
Proof.
  cbv zeta.
  assert (Hreach : Reachable readyPage) by (apply ReachInit, ReachLoaded).
  assert (Hclock : (clock readyPage <= 1000)%N) by (vm_compute; discriminate).
  assert (Hlate : Forall (fun timer => (1000 < due timer)%N) (timers readyPage))
    by constructor.
  assert (Hwindow : withinWindow 1000 [(1100%N, lit "gu"); (1250%N, lit "gui")])
    by (simpl; lia).
  assert (HT : (1250 + 300 <= 1600)%N) by lia.
  pose proof (@burst_of_keystrokes_runs_the_last_query_once readyPage 1000 (lit "g")
                [(1100%N, lit "gu"); (1250%N, lit "gui")] 1600
                Hreach Hclock Hlate Hwindow HT) as H.
  cbv zeta in H. destruct H as [_ [_ [_ [Htimers Hcalls]]]].
  repeat split; try assumption; try lia.
Defined.

(** C9, against the wording: on a page whose engine is ready the user types
    [a] and, 100ms later, deletes it.  The timer of the first keystroke is
    cancelled and the timer of the second fires with the empty text, for
    which the engine is not called: the burst ends in no call of the engine,
    not in one. *)
Lemma burst_ending_in_empty_text_calls_nothing :
  let keystrokes := [(1000%N, lit "a"); (1100%N, [])] in
  let settled := advanceTo 1500 (runUser (typing keystrokes) readyPage) in
  isReady readyPage = true /\
  withinWindow 1000 [(1100%N, [])] /\
  timers settled = [] /\
  engineCalls settled = [] /\
  List.length (engineCalls settled) <> 1.
Proof.
  cbv zeta. split; [reflexivity|]. split; [simpl; lia|].
  split; [vm_compute; reflexivity|]. split; [vm_compute; reflexivity|].
  vm_compute. discriminate.
Qed.

(* ================================================================== *)
(** ** Further properties of the index route                           *)
(* ================================================================== *)

Lemma trim_keeps (P : codeunit -> bool) (s : jsstring) :
  forallb P s = true -> forallb P (trim s) = true.
Proof.
  intros H. destruct (trim_decompose s) as [lead [trail [Heq _]]].
  rewrite Heq in H. rewrite !forallb_app in H.
  apply andb_prop in H as [_ H]. now apply andb_prop in H as [H _].
Qed.

Lemma excerptOf_truthy (content : jsstring) : truthy (excerptOf content) = true.
Proof.
  unfold excerptOf. now destruct (trim (removeClass isMarkup (slice0 200 content))).
Qed.

Lemma excerptOf_no_markup (content : jsstring) :
  forallb (fun c => negb (isMarkup c)) (excerptOf content) = true.
Proof.
  unfold excerptOf. rewrite forallb_app. apply andb_true_intro. split.
  - apply trim_keeps, removeClass_clean.
  - reflexivity.
Qed.

(** X1.  The excerpt of a record is never empty and has none of the
    characters [#], [*] and backtick; the description of a record is never
    empty either: it is the document's own description when that is present
    and not empty, and the excerpt otherwise. *)
Theorem record_description_and_excerpt_are_never_empty :
  forall (unicodeUpper unicodeLower : jsstring -> jsstring)
         (toISOString : Date -> jsstring) (doc : Doc),
    let excerpt := excerptOf (contentOf doc) in
    let described := strOr (description (data doc)) excerpt in
    assoc "description" (searchRecord unicodeUpper unicodeLower doc)
      = Some (VStr described) /\
    assoc "description" (searchRecordPlain unicodeUpper toISOString doc)
      = Some (VStr described) /\
    truthy excerpt = true /\
    forallb (fun c => negb (isMarkup c)) excerpt = true /\
    truthy described = true /\
    match description (data doc) with
    | Some (c :: d) => described = c :: d
    | _ => described = excerpt
    end.
Proof.
  intros up low iso doc excerpt described.
  split; [reflexivity|]. split; [reflexivity|].
  split; [apply excerptOf_truthy|]. split; [apply excerptOf_no_markup|].
  unfold described, strOr.
  destruct (description (data doc)) as [[|c d]|]; simpl;
    (split; [try reflexivity; apply excerptOf_truthy | reflexivity]).
Qed.

(** X2.  A record of the artifact, in either variant of the route, is drawn
    by the search box as a card with all four parts: the link to the
    document's page, its title, the display name of its application, and the
    excerpt, which is never left out as it is never empty. *)
Theorem artifact_records_render_complete_cards :
  forall (unicodeUpper unicodeLower : jsstring -> jsstring)
         (toISOString : Date -> jsstring) (doc : Doc) (index : nat) (relevance : Q),
    let card :=
      {| SearchBox.href := Some (JStr (lit "/" ++ slug doc));
         SearchBox.cardTitle := Some (JStr (title (data doc)));
         SearchBox.cardApp := Some (JStr (appNameOf unicodeUpper (appSegment (slug doc))));
         SearchBox.cardExcerpt := Some (JStr (excerptOf (contentOf doc))) |} in
    SearchBox.renderCard
      {| SearchBox.item := stringifyRecord toISOString (searchRecord unicodeUpper unicodeLower doc);
         SearchBox.refIndex := index; SearchBox.score := relevance |} = card /\
    SearchBox.renderCard
      {| SearchBox.item := stringifyRecord toISOString (searchRecordPlain unicodeUpper toISOString doc);
         SearchBox.refIndex := index; SearchBox.score := relevance |} = card.
Proof.
  intros up low iso doc index relevance card.
  unfold card, SearchBox.renderCard, stringifyRecord, searchRecord, searchRecordPlain.
  simpl. pose proof (excerptOf_truthy (contentOf doc)) as H.
  destruct (excerptOf (contentOf doc)); [discriminate|]. split; reflexivity.
Qed.

Lemma In_firstn {A : Type} (n : nat) (l : list A) (x : A) :
  In x (firstn n l) -> In x l.
Proof.
  revert l. induction n as [|n IH]; intros [|a l]; simpl; try tauto.
  intros [H|H]; [now left | right; now apply IH].
Qed.

(** A code unit of a piece of a cut is a code unit of the string. *)
Lemma pieces_incl (p : codeunit -> bool) (s : jsstring) :
  forall w c, In w (pieces p s) -> In c w -> In c s.
Proof.
  unfold pieces. induction s as [|d r IH]; simpl.
  - intros w c [<-|[]] [].
  - destruct (splitWhen p r) as [v vs]. destruct (p d).
    + intros w c [<-|Hw] Hc; [destruct Hc|]. right. eapply IH; eassumption.
    + intros w c [<-|Hw] Hc.
      * destruct Hc as [->|Hc]; [now left|]. right. apply (IH v c); [now left | assumption].
      * right. apply (IH w c); [now right | assumption].
Qed.

Lemma asciiLower_not_upper (c : codeunit) : isUpperAZ (asciiLower c) = false.
Proof.
  unfold asciiLower. destruct (isUpperAZ c) eqn:H; [|assumption].
  unfold isUpperAZ, inRange in *. apply andb_prop in H as [H1 H2].
  apply N.leb_le in H1, H2. apply andb_false_intro2. apply N.leb_gt. lia.
Qed.

Lemma wholeWords_keywords (s : jsstring) (w : jsstring) :
  In w (wholeWords s) ->
  isKeyword w = true /\ forall c, In c w -> In c s.
Proof.
  unfold wholeWords, runsOf. intros H.
  apply filter_In in H as [H Hk]. apply filter_In in H as [H _].
  split; [assumption|]. intros c Hc. eapply pieces_incl; eassumption.
Qed.

(** X3.  The keywords of a body are at most fifty words joined by single
    spaces, each of three or more letters and of letters only; when the body
    is ASCII text these letters are all in lower case. *)
Theorem keywords_are_at_most_fifty_words_of_letters :
  forall (unicodeLower : jsstring -> jsstring) (content : jsstring),
    exists words,
      contentKeywords unicodeLower content = join (lit " ") words /\
      List.length words <= 50 /\
      Forall (fun w => 3 <= List.length w /\ forallb isLetter w = true) words /\
      (forallb isAscii content = true ->
       Forall (fun w => forallb isLowerAZ w = true) words).
Proof.
  intros low content.
  exists (firstn 50 (wholeWords (toLowerCase low content))).
  split; [apply contentKeywords_wholeWords|].
  split; [apply firstn_le_length|]. split.
  - apply Forall_forall. intros w Hw. apply In_firstn in Hw.
    apply wholeWords_keywords in Hw as [Hk _]. unfold isKeyword in Hk.
    apply andb_prop in Hk as [Hlen Hall]. split; [now apply Nat.leb_le | assumption].
  - intros Hascii. apply Forall_forall. intros w Hw. apply In_firstn in Hw.
    apply wholeWords_keywords in Hw as [Hk Hin]. unfold isKeyword in Hk.
    apply andb_prop in Hk as [_ Hall].
    unfold toLowerCase in Hin. rewrite Hascii in Hin.
    apply forallb_forall. intros c Hc.
    rewrite forallb_forall in Hall. specialize (Hall c Hc).
    specialize (Hin c Hc). apply in_map_iff in Hin as [d [<- _]].
    unfold isLetter in Hall. rewrite asciiLower_not_upper in Hall.
    now rewrite orb_false_r in Hall.
Qed.

(* ------------------------------------------------------------------ *)
(** *** Display names of ASCII segments                                *)
(* ------------------------------------------------------------------ *)

Lemma toUpperCase_ascii_unit (unicodeUpper : jsstring -> jsstring) (c : codeunit) :
  isAscii c = true -> toUpperCase unicodeUpper [c] = [asciiUpper c].
Proof. intros H. unfold toUpperCase. simpl. now rewrite H. Qed.

Lemma asciiUpper_facts (c : codeunit) :
  isAscii c = true ->
  isAscii (asciiUpper c) = true /\
  asciiUpper (asciiUpper c) = asciiUpper c /\
  ((c =? 45)%N = false -> (asciiUpper c =? 45)%N = false).
Proof.
  unfold asciiUpper, isAscii, isLowerAZ, inRange. intros Hc.
  apply N.ltb_lt in Hc.
  destruct ((97 <=? c)%N && (c <=? 122)%N) eqn:Hl.
  - apply andb_prop in Hl as [H1 H2]. apply N.leb_le in H1, H2.
    replace ((97 <=? c - 32)%N) with false by (symmetry; apply N.leb_gt; lia).
    simpl. repeat split.
    + apply N.ltb_lt. lia.
    + intros _. apply N.eqb_neq. lia.
  - rewrite Hl. repeat split; [now apply N.ltb_lt | tauto].
Qed.

(** The one pass over an ASCII segment: length, hyphens and the code units
    it leaves. *)
Lemma capitalizeWords_ascii (unicodeUpper : jsstring -> jsstring) (s : jsstring) :
  forallb isAscii s = true ->
  forall atStart : bool,
    let r := capitalizeWords (toUpperCase unicodeUpper) atStart s in
    List.length r = List.length s /\
    existsb (fun c => (c =? 45)%N) r = false /\
    forallb isAscii r = true /\
    hd_error r = match s with
                 | [] => None
                 | c :: _ => Some (if (c =? 45)%N then 32%N
                                   else if atStart then asciiUpper c else c)
                 end.
Proof.
  induction s as [|c s IH]; intros Hs atStart; [repeat split|].
  simpl in Hs. apply andb_prop in Hs as [Hc Hs].
  cbv zeta. simpl capitalizeWords.
  destruct (c =? 45)%N eqn:Hh.
  - destruct (IH Hs true) as [Hl [He [Ha _]]]. simpl. rewrite Hl, He, Ha.
    repeat split.
  - destruct (IH Hs false) as [Hl [He [Ha _]]].
    destruct (@asciiUpper_facts c Hc) as [Hu [_ Hne]].
    destruct atStart.
    + rewrite (@toUpperCase_ascii_unit unicodeUpper c Hc). simpl.
      rewrite Hl, He, Ha, Hu, (Hne Hh). repeat split.
    + simpl. rewrite Hl, He, Ha, Hc, Hh. repeat split.
Qed.

Lemma capitalizeWords_no_hyphen (upper : jsstring -> jsstring) (s : jsstring) :
  existsb (fun c => (c =? 45)%N) s = false ->
  capitalizeWords upper false s = s.
Proof.
  induction s as [|c s IH]; simpl; [reflexivity|].
  intros H. apply orb_false_elim in H as [Hc Hs]. rewrite Hc. simpl.
  now rewrite IH.
Qed.

Lemma appNameOf_one_pass (unicodeUpper : jsstring -> jsstring) (segment : jsstring) :
  appNameOf unicodeUpper segment
  = capitalizeWords (toUpperCase unicodeUpper) true segment.
Proof.
  rewrite appNameOf_pass. unfold appNameOf, split, pieces.
  destruct (splitWhen (fun c => (c =? 45)%N) segment). reflexivity.
Qed.

(** X4.  For a segment of ASCII text the display name has as many code units
    as the segment and no hyphen, and formatting it once more changes
    nothing. *)
Theorem display_name_of_ascii_segment_is_stable :
  forall (unicodeUpper : jsstring -> jsstring) (segment : jsstring),
    forallb isAscii segment = true ->
    List.length (appNameOf unicodeUpper segment) = List.length segment /\
    existsb (fun c => (c =? 45)%N) (appNameOf unicodeUpper segment) = false /\
    appNameOf unicodeUpper (appNameOf unicodeUpper segment)
      = appNameOf unicodeUpper segment.
Proof.
  intros up segment Hs.
  rewrite !appNameOf_one_pass.
  destruct (@capitalizeWords_ascii up segment Hs true) as [Hl [He [Ha Hhd]]].
  split; [assumption|]. split; [assumption|].
  remember (capitalizeWords (toUpperCase up) true segment) as r eqn:Hr.
  destruct r as [|d r]; [reflexivity|].
  simpl in He. apply orb_false_elim in He as [Hd He].
  simpl in Ha. apply andb_prop in Ha as [Had Ha].
  simpl capitalizeWords. rewrite Hd.
  rewrite (@toUpperCase_ascii_unit up d Had). simpl.
  rewrite capitalizeWords_no_hyphen by assumption.
  f_equal. destruct segment as [|c segment]; [discriminate|].
  simpl in Hs. apply andb_prop in Hs as [Hc _].
  simpl in Hhd. injection Hhd as Hhd.
  destruct (c =? 45)%N; subst d; [reflexivity|].
  now destruct (@asciiUpper_facts c Hc) as [_ [Hi _]].
Qed.

Lemma display_name_of_application_one_is_stable :
  forallb isAscii (lit "application-one") = true /\
  List.length (appNameOf plainCase (lit "application-one"))
    = List.length (lit "application-one") /\
  existsb (fun c => (c =? 45)%N) (appNameOf plainCase (lit "application-one")) = false /\
  appNameOf plainCase (appNameOf plainCase (lit "application-one"))
    = appNameOf plainCase (lit "application-one").
Proof.
  split; [reflexivity|].
  apply (@display_name_of_ascii_segment_is_stable plainCase (lit "application-one")).
  reflexivity.
Defined.

(* ================================================================== *)
(** ** The document page and its layouts                               *)
(* ================================================================== *)

Lemma splitWhen_rest_nil (p : codeunit -> bool) (s : jsstring) :
  snd (splitWhen p s) = [] <-> existsb p s = false.
Proof.
  induction s as [|c r IH]; simpl; [tauto|].
  destruct (splitWhen p r) as [w ws]. simpl in IH.
  destruct (p c); simpl; [split; intros H; discriminate H | exact IH].
Qed.

Lemma docPageHead_throws (unicodeUpper : jsstring -> jsstring) (doc : Doc) :
  docPageHead unicodeUpper doc = ThrowsTypeError <->
  existsb (fun c : codeunit => (c =? 47)%N) (slug doc) = false.
Proof.
  rewrite <- splitWhen_rest_nil. unfold docPageHead, split, pieces.
  destruct (splitWhen (fun c : codeunit => (c =? 47)%N) (slug doc)) as [w [|v vs]]; simpl;
    split; intros H; (reflexivity || discriminate H).
Qed.

(** X5.  The page of a document can be built exactly when its slug has a
    second segment: for a slug without a slash the frontmatter of the page
    throws a [TypeError], although the index route writes a record for such a
    document like for any other.  There is one path per document, and the url
    of every search record is a slash followed by the slug of a path. *)
Theorem doc_page_needs_a_second_segment :
  forall (unicodeUpper unicodeLower : jsstring -> jsstring)
         (docs : list Doc) (doc : Doc),
    (docPageHead unicodeUpper doc = ThrowsTypeError <->
     existsb (fun c : codeunit => (c =? 47)%N) (slug doc) = false) /\
    (docPageDocument unicodeUpper doc = ThrowsTypeError <->
     existsb (fun c : codeunit => (c =? 47)%N) (slug doc) = false) /\
    map paramSlug (getStaticPaths docs) = map slug docs /\
    map (assoc "url") (map (searchRecord unicodeUpper unicodeLower) docs)
      = map (fun path => Some (VStr (lit "/" ++ paramSlug path))) (getStaticPaths docs).
Proof.
  intros up low docs doc.
  split; [apply docPageHead_throws|]. split.
  - rewrite <- (docPageHead_throws up doc). unfold docPageDocument.
    destruct (docPageHead up doc); split; intros H; (reflexivity || discriminate H).
  - unfold getStaticPaths. rewrite !map_map. split; reflexivity.
Qed.

(** X6.  When the page of a document is built, its header agrees with the
    document's search record: the application name on the page is the [app]
    of the record, the last crumb links to the [url] of the record, the
    crumbs lead from the home page over the application to the document, and
    the title of the page is the document's title, a bar and the application
    name. *)
Theorem page_header_agrees_with_search_record :
  forall (unicodeUpper unicodeLower : jsstring -> jsstring) (doc : Doc) (head : PageHead),
    docPageHead unicodeUpper doc = Returns head ->
    assoc "app" (searchRecord unicodeUpper unicodeLower doc)
      = Some (VStr (headAppName head)) /\
    assoc "url" (searchRecord unicodeUpper unicodeLower doc)
      = Some (VStr (crumbHref (last (breadcrumb head) {| crumbName := []; crumbHref := [] |}))) /\
    map crumbHref (breadcrumb head)
      = [ lit "/"; lit "/" ++ appSegment (slug doc); lit "/" ++ slug doc ] /\
    map crumbName (breadcrumb head)
      = [ lit "Home"; headAppName head; headCategoryName head ] /\
    pageTitle head = title (data doc) ++ lit " | " ++ headAppName head.
Proof.
  intros up low doc head. unfold docPageHead, searchRecord, appSegment.
  destruct (split 47%N (slug doc)) as [|app [|category rest]]; try discriminate.
  intros H. injection H as <-. simpl. repeat split.
Qed.

Lemma page_header_of_sample_agrees :
  exists head,
    docPageHead plainCase sampleDoc = Returns head /\
    assoc "app" (searchRecord plainCase plainCase sampleDoc)
      = Some (VStr (headAppName head)) /\
    assoc "url" (searchRecord plainCase plainCase sampleDoc)
      = Some (VStr (crumbHref (last (breadcrumb head) {| crumbName := []; crumbHref := [] |}))) /\
    map crumbHref (breadcrumb head)
      = [ lit "/"; lit "/" ++ appSegment (slug sampleDoc); lit "/" ++ slug sampleDoc ] /\
    map crumbName (breadcrumb head)
      = [ lit "Home"; headAppName head; headCategoryName head ] /\
    pageTitle head = title (data sampleDoc) ++ lit " | " ++ headAppName head.
Proof.
  eexists. split; [reflexivity|].
  apply (@page_header_agrees_with_search_record plainCase plainCase sampleDoc).
  reflexivity.
Defined.

(** X7.  On the page of a document the title of the HTML document is the
    document's title, a bar and the application name, and the description is
    the document's own description whenever it has one, also an empty one;
    the default of the base layout is used only when there is none.  (The
    search record of a document with an empty description has the excerpt
    instead.) *)
Theorem doc_page_head_title_and_description :
  forall (unicodeUpper unicodeLower : jsstring -> jsstring) (doc : Doc) (html : HtmlHead),
    docPageDocument unicodeUpper doc = Returns html ->
    headTitle html
      = title (data doc) ++ lit " | " ++ appNameOf unicodeUpper (appSegment (slug doc)) /\
    metaDescription html = match description (data doc) with
                           | Some d => d
                           | None => defaultDescription
                           end /\
    (description (data doc) = Some [] ->
     metaDescription html = [] /\
     assoc "description" (searchRecord unicodeUpper unicodeLower doc)
       = Some (VStr (excerptOf (contentOf doc)))).
Proof.
  intros up low doc html. unfold docPageDocument, docPageHead, appSegment.
  destruct (split 47%N (slug doc)) as [|app [|category rest]]; try discriminate.
  intros H. injection H as <-.
  unfold docsLayout, baseLayout, optOr. simpl.
  split; [reflexivity|]. split; [reflexivity|].
  intros Hempty. unfold searchRecord. simpl. rewrite Hempty. split; reflexivity.
Qed.

Lemma doc_page_head_of_sample :
  exists html,
    docPageDocument plainCase sampleDoc = Returns html /\
    headTitle html
      = title (data sampleDoc) ++ lit " | " ++ appNameOf plainCase (appSegment (slug sampleDoc)) /\
    metaDescription html = match description (data sampleDoc) with
                           | Some d => d
                           | None => defaultDescription
                           end /\
    (description (data sampleDoc) = Some [] ->
     metaDescription html = [] /\
     assoc "description" (searchRecord plainCase plainCase sampleDoc)
       = Some (VStr (excerptOf (contentOf sampleDoc)))).
Proof.
  eexists. split; [reflexivity|].
  apply (@doc_page_head_title_and_description plainCase plainCase sampleDoc).
  reflexivity.
Defined.

(* ================================================================== *)
(** ** The table of contents                                           *)
(* ================================================================== *)

Lemma ensureId_truthy (index : nat) (heading : Heading) :
  truthy (headingId (ensureId index heading)) = true.
Proof.
  unfold ensureId. destruct (truthy (headingId heading)) eqn:H; [assumption|].
  reflexivity.
Qed.

(** The callback leaves heading [k] with the id it had, or with
    [heading-] and its index, and lists the items of the headings it
    leaves. *)
Lemma forEachHeading_spec (headings : list Heading) :
  forall index,
    snd (forEachHeading index headings)
      = map tocItem (fst (forEachHeading index headings)) /\
    forall k,
      nth_error (fst (forEachHeading index headings)) k
      = option_map (ensureId (index + k)) (nth_error headings k).
Proof.
  induction headings as [|h rest IH]; intros index; simpl.
  - split; [reflexivity|]. intros [|k]; reflexivity.
  - destruct (IH (S index)) as [Hitems Hnth].
    destruct (forEachHeading (S index) rest) as [rest' items]. simpl in *.
    split; [now rewrite Hitems|].
    intros [|k]; simpl.
    + now rewrite Nat.add_0_r.
    + rewrite (Hnth k). now rewrite Nat.add_succ_r.
Qed.

Lemma forEachHeading_length (headings : list Heading) :
  forall index,
    List.length (fst (forEachHeading index headings)) = List.length headings.
Proof.
  induction headings as [|h rest IH]; intros index; simpl; [reflexivity|].
  specialize (IH (S index)).
  destruct (forEachHeading (S index) rest) as [rest' items]. simpl in *.
  now rewrite IH.
Qed.

Lemma forEachHeading_ids (headings : list Heading) :
  forall index,
    Forall (fun h => truthy (headingId h) = true) (fst (forEachHeading index headings)).
Proof.
  induction headings as [|h rest IH]; intros index; simpl; [constructor|].
  specialize (IH (S index)).
  destruct (forEachHeading (S index) rest) as [rest' items]. simpl in *.
  constructor; [apply ensureId_truthy | assumption].
Qed.

(** X8.  On a page with headings the script lists one link per heading, in
    the order of the document.  Heading [k] keeps the id it has, or gets
    [heading-k] when it has none, so that every heading has an id afterwards;
    item [k] of the list is the link of heading [k]: it points at that id
    behind [#] and shows the text of the heading, is indented for [h3] and
    [h4] and not for [h1] and [h2], and is set in medium weight for [h1]
    only.  On a page without headings
    the box of the table is taken off, and without the container nothing is
    done. *)
Theorem toc_lists_one_link_per_heading :
  forall (heading : Heading) (rest : list Heading),
    let headings := heading :: rest in
    let page := generateToc true headings in
    tocBoxHidden page = false /\
    tocList page = Some (map tocItem (headingsAfter page)) /\
    List.length (headingsAfter page) = List.length headings /\
    Forall (fun h => truthy (headingId h) = true) (headingsAfter page) /\
    (forall k,
       nth_error (headingsAfter page) k
       = option_map (fun h =>
           {| tagName := tagName h;
              headingId := if truthy (headingId h) then headingId h
                           else lit "heading-" ++ decimal k;
              textContent := textContent h |}) (nth_error headings k)) /\
    (exists items,
       tocList page = Some items /\
       List.length items = List.length headings /\
       forall k,
         nth_error items k
         = option_map (fun h =>
             {| itemIndented := match tagName h with
                                | H3 | H4 => true
                                | H1 | H2 => false
                                end;
                linkHref := 35%N :: match headingId h with
                                    | [] => lit "heading-" ++ decimal k
                                    | c :: id => c :: id
                                    end;
                linkText := textContent h;
                linkMedium := match tagName h with
                              | H1 => true
                              | H2 | H3 | H4 => false
                              end |}) (nth_error headings k)) /\
    generateToc true [] = {| headingsAfter := []; tocList := None; tocBoxHidden := true |} /\
    generateToc false headings
      = {| headingsAfter := headings; tocList := None; tocBoxHidden := false |}.
Proof.
  intros heading rest. cbv zeta.
  remember (heading :: rest) as headings eqn:Hheadings.
  remember (generateToc true headings) as page eqn:Hpage0.
  assert (Hpage : page = {| headingsAfter := fst (forEachHeading 0 headings);
                            tocList := Some (snd (forEachHeading 0 headings));
                            tocBoxHidden := false |}).
  { subst page headings. unfold generateToc. simpl.
    destruct (forEachHeading 1 rest) as [rest' items]. reflexivity. }
  clear Hpage0.
  destruct (forEachHeading_spec headings 0) as [Hitems Hnth].
  assert (Hk : forall k,
             nth_error (headingsAfter page) k
             = option_map (fun h =>
                 {| tagName := tagName h;
                    headingId := if truthy (headingId h) then headingId h
                                 else lit "heading-" ++ decimal k;
                    textContent := textContent h |}) (nth_error headings k)).
  { intros k. rewrite Hpage. simpl headingsAfter.
    rewrite (Hnth k).
    destruct (nth_error headings k) as [h|] eqn:Hh.
    - simpl. f_equal. unfold ensureId.
      destruct (truthy (headingId h)); [now destruct h | reflexivity].
    - reflexivity. }
  subst page. simpl headingsAfter in *. simpl tocList. simpl tocBoxHidden.
  split; [reflexivity|]. split; [now rewrite Hitems|].
  split; [apply (forEachHeading_length headings 0)|].
  split; [apply (forEachHeading_ids headings 0)|].
  split; [exact Hk|].
  split; [|split; [reflexivity | unfold generateToc; now rewrite andb_false_r]].
  exists (map tocItem (fst (forEachHeading 0 headings))).
  split; [now rewrite Hitems|].
  split; [rewrite length_map; apply (forEachHeading_length headings 0)|].
  intros k. rewrite nth_error_map, (Hk k).
  destruct (nth_error headings k) as [h|]; [|reflexivity].
  cbn [option_map]. f_equal. unfold tocItem. cbn [tagName headingId textContent].
  destruct h as [tag [|c id] text]; destruct tag; reflexivity.
Qed.

Lemma lit_injective (s t : string) : lit s = lit t -> s = t.
Proof.
  unfold lit. intros H.
  rewrite <- (string_of_list_ascii_of_string s), <- (string_of_list_ascii_of_string t).
  f_equal. revert H. generalize (list_ascii_of_string t).
  induction (list_ascii_of_string s) as [|a l IH]; intros [|b m]; simpl;
    try discriminate; [reflexivity|].
  intros H. injection H as Hab Hlm. f_equal; [|now apply IH].
  rewrite <- (ascii_N_embedding a), <- (ascii_N_embedding b). now rewrite Hab.
Qed.

Lemma decimal_injective (n m : nat) : decimal n = decimal m -> n = m.
Proof.
  unfold decimal. intros H. apply lit_injective in H.
  assert (Hu : Some (Nat.to_uint n) = Some (Nat.to_uint m)).
  { rewrite <- !NilEmpty.usu. now rewrite H. }
  injection Hu as Hu.
  rewrite <- (DecimalNat.Unsigned.of_to n), <- (DecimalNat.Unsigned.of_to m).
  now rewrite Hu.
Qed.

Lemma NoDup_map_injective {A B : Type} (f : A -> B) (l : list A) :
  (forall x y, f x = f y -> x = y) -> NoDup l -> NoDup (map f l).
Proof.
  intros Hinj. induction 1 as [|a l Hnot _ IH]; simpl; constructor; [|assumption].
  intros Hin. apply in_map_iff in Hin as [b [Hb Hin]].
  apply Hinj in Hb. now subst b.
Qed.

Lemma forEachHeading_fresh_ids (headings : list Heading) :
  Forall (fun h => headingId h = []) headings ->
  forall index,
    map headingId (fst (forEachHeading index headings))
    = map (fun k => lit "heading-" ++ decimal k) (seq index (List.length headings)).
Proof.
  induction 1 as [|h rest Hh _ IH]; intros index; simpl; [reflexivity|].
  specialize (IH (S index)).
  destruct (forEachHeading (S index) rest) as [rest' items]. simpl in *.
  rewrite IH. unfold ensureId. now rewrite Hh.
Qed.

(** X9.  When none of the headings of a page has an id, the script numbers
    them: heading [k] gets the id [heading-k], so that the ids it gives, and
    with them the targets of the links of the table, are pairwise
    distinct. *)
Theorem toc_numbers_headings_without_ids :
  forall headings : list Heading,
    Forall (fun h => headingId h = []) headings ->
    let page := generateToc true headings in
    map headingId (headingsAfter page)
      = map (fun k => lit "heading-" ++ decimal k) (seq 0 (List.length headings)) /\
    NoDup (map headingId (headingsAfter page)) /\
    NoDup (map linkHref (map tocItem (headingsAfter page))).
Proof.
  intros headings Hnone page.
  assert (Hids : map headingId (headingsAfter page)
                 = map (fun k => lit "heading-" ++ decimal k)
                       (seq 0 (List.length headings))).
  { unfold page, generateToc. destruct headings as [|h rest]; [reflexivity|].
    pose proof (forEachHeading_fresh_ids Hnone 0) as H.
    simpl in *. destruct (forEachHeading 1 rest) as [rest' items]. exact H. }
  assert (Hdistinct : NoDup (map headingId (headingsAfter page))).
  { rewrite Hids. apply NoDup_map_injective; [|apply seq_NoDup].
    intros x y Hxy. apply app_inv_head in Hxy. now apply decimal_injective. }
  split; [assumption|]. split; [assumption|].
  rewrite map_map. unfold tocItem. simpl.
  rewrite <- (map_map headingId (fun id => lit "#" ++ id)).
  apply NoDup_map_injective; [|assumption].
  intros x y Hxy. now apply app_inv_head in Hxy.
Qed.

Lemma toc_numbers_two_headings :
  let headings := [ {| tagName := H2; headingId := []; textContent := lit "Setup" |};
                    {| tagName := H3; headingId := []; textContent := lit "Usage" |} ] in
  Forall (fun h => headingId h = []) headings /\
  map headingId (headingsAfter (generateToc true headings))
    = [ lit "heading-0"; lit "heading-1" ] /\
  NoDup (map headingId (headingsAfter (generateToc true headings))) /\
  NoDup (map linkHref (map tocItem (headingsAfter (generateToc true headings)))).
Proof.
  cbv zeta. split; [repeat constructor|].
  apply (@toc_numbers_headings_without_ids
           [ {| tagName := H2; headingId := []; textContent := lit "Setup" |};
             {| tagName := H3; headingId := []; textContent := lit "Usage" |} ]).
  repeat constructor.
Defined.

(* ================================================================== *)
(** ** The sections of the sidebar                                     *)
(* ================================================================== *)

Lemma toggleSection_in_step (s : AppSection) :
  contentHidden (toggleSection true s) = negb (contentHidden s) /\
  chevronRotated (toggleSection true s) = negb (contentHidden (toggleSection true s)) /\
  ariaExpanded (toggleSection true s) = negb (contentHidden (toggleSection true s)).
Proof.
  unfold toggleSection. destruct (contentHidden s); repeat split.
Qed.

Lemma toggleSection_iter (s : AppSection) (n : nat) :
  contentHidden (Nat.iter n (toggleSection true) s)
  = xorb (contentHidden s) (Nat.odd n).
Proof.
  induction n as [|n IH].
  - simpl. now rewrite xorb_false_r.
  - rewrite Nat.odd_succ, <- Nat.negb_odd.
    change (Nat.iter (S n) (toggleSection true) s)
      with (toggleSection true (Nat.iter n (toggleSection true) s)).
    destruct (toggleSection_in_step (Nat.iter n (toggleSection true) s)) as [H _].
    rewrite H, IH. now destruct (contentHidden s), (Nat.odd n).
Qed.

(** X10.  A click on the button of an application shows its list when it was
    hidden and hides it when it was shown, and whatever the section looked
    like before, after one or more clicks its list, its chevron and
    [aria-expanded] are in step: the chevron is turned and the button is
    marked expanded exactly when the list is not hidden.  A click whose list
    or chevron is not found changes nothing. *)
Theorem sidebar_section_stays_in_step :
  forall (s : AppSection) (clicks : nat),
    let section := Nat.iter (S clicks) (toggleSection true) s in
    contentHidden section = xorb (contentHidden s) (Nat.odd (S clicks)) /\
    chevronRotated section = negb (contentHidden section) /\
    ariaExpanded section = negb (contentHidden section) /\
    toggleSection false s = s.
Proof.
  intros s clicks. cbv zeta.
  split; [apply toggleSection_iter|].
  change (Nat.iter (S clicks) (toggleSection true) s)
    with (toggleSection true (Nat.iter clicks (toggleSection true) s)).
  destruct (toggleSection_in_step (Nat.iter clicks (toggleSection true) s))
    as [_ [H2 H3]].
  repeat split; assumption.
Qed.

(* ================================================================== *)
(** ** Further properties of the search box                            *)
(* ================================================================== *)

Lemma loggedQueries_app (l m : list LogEntry) :
  loggedQueries (l ++ m) = loggedQueries l ++ loggedQueries m.
Proof. unfold loggedQueries. apply flat_map_app. Qed.

Lemma cards_within_ten (results : list FuseResult) :
  contentOk (Some match results with
                  | [] => NoResultsFound
                  | _ :: _ => Cards (map renderCard (firstn 10 results))
                  end).
Proof.
  destruct results as [|r rs]; [exact I|].
  unfold contentOk. rewrite length_map. split.
  - simpl. lia.
  - apply firstn_le_length.
Qed.

(** The panel and the record of the calls depend on six fields of the page. *)
Lemma PanelInv_frame (p p' : Page) :
  resultsContent p' = resultsContent p ->
  dropdownHidden p' = dropdownHidden p \/ dropdownHidden p' = Some true
    \/ dropdownHidden p' = None ->
  (isReady p = true -> isReady p' = true) ->
  engineCalls p' = engineCalls p ->
  loggedQueries (console p') = loggedQueries (console p) ->
  uncaught p' = uncaught p ->
  PanelInv p -> PanelInv p'.
Proof.
  intros Hc Hd Hr He Hl Hu [I1 [I2 [I3 [I4 I5]]]].
  unfold PanelInv. rewrite Hc, He, Hl, Hu.
  repeat split; try assumption.
  - destruct Hd as [Hd|[Hd|Hd]]; rewrite Hd in H; try discriminate.
    apply Hr. now apply I2.
  - destruct Hd as [Hd|[Hd|Hd]]; rewrite Hd in H; try discriminate.
    now apply I2.
Qed.

Ltac page_fields :=
  cbn [Fuse searchIndex fuse searchTimeout inputValue inputFocused dropdownHidden
       resultsContent clock timers nextTimerId console engineCalls uncaught
       setFuseClass setSearchIndex setFuse setSearchTimeout setInputValue
       setInputFocused setDropdownHidden setResultsContent setClock setTimers
       setNextTimerId setConsole setEngineCalls setUncaught] in *.

(** [search], written out: with an engine and a query that is not blank it
    notes the call, logs the results and, when the panel is there, fills and
    shows it; otherwise it only hides the panel. *)
Lemma search_outcome (query : jsstring) (p : Page) :
  search query p =
  match fuse p with
  | Some engine =>
      if truthy (trim query) then
        let results := searchMethod engine query in
        let noted := setConsole (console p ++ [LogResults query results])
                       (setEngineCalls (engineCalls p ++ [query]) p) in
        (Normal tt,
         if hasPanel p
         then setDropdownHidden (Some false)
                (setResultsContent
                   (Some match results with
                         | [] => NoResultsFound
                         | _ :: _ => Cards (map renderCard (firstn 10 results))
                         end) noted)
         else noted)
      else hideResults p
  | None => hideResults p
  end.
Proof.
  unfold search, hasPanel.
  destruct p as [F index engine pending value focused hidden content time table next log calls errors].
  destruct engine as [engine|]; [|reflexivity].
  unfold bind at 1. unfold get at 1. cbn [fuse].
  destruct (truthy (trim query)); [|reflexivity].
  destruct content, hidden; reflexivity.
Qed.

Lemma hideResults_keeps_PanelInv (p : Page) :
  PanelInv p -> exists p', hideResults p = (Normal tt, p') /\ PanelInv p'.
Proof.
  intros Hinv. unfold hideResults, modify. eexists. split; [reflexivity|].
  destruct (dropdownHidden p) eqn:Hd; [|assumption].
  apply (PanelInv_frame (p := p)); page_fields; auto.
Qed.

(** [search] keeps the panel and the record of the calls in order. *)
Lemma search_keeps_PanelInv (query : jsstring) (p : Page) :
  PanelInv p ->
  exists p', search query p = (Normal tt, p') /\ PanelInv p'.
Proof.
  intros Hinv. rewrite search_outcome.
  destruct (fuse p) as [engine|] eqn:Hfuse;
    [|now apply hideResults_keeps_PanelInv].
  destruct (truthy (trim query)) eqn:Hq;
    [|now apply hideResults_keeps_PanelInv].
  cbv zeta. eexists. split; [reflexivity|].
  destruct Hinv as [I1 [I2 [I3 [I4 I5]]]].
  assert (Hready : forall q : Page, fuse q = fuse p -> isReady q = true).
  { intros q Hq'. unfold isReady. now rewrite Hq', Hfuse. }
  destruct (hasPanel p) eqn:Hpanel; unfold PanelInv; page_fields.
  - rewrite loggedQueries_app, I4.
    split; [apply cards_within_ten|]. split.
    + intros _. split; [now apply Hready|].
      destruct (searchMethod engine query);
        [left; reflexivity | right; eexists; reflexivity].
    + split; [|split; [reflexivity | assumption]].
      apply Forall_app. split; [assumption | now repeat constructor].
  - rewrite loggedQueries_app, I4.
    split; [assumption|]. split.
    + intros H. destruct (I2 H) as [_ Hcontent].
      split; [now apply Hready | assumption].
    + split; [|split; [reflexivity | assumption]].
      apply Forall_app. split; [assumption | now repeat constructor].
Qed.

Lemma listener_keeps_PanelInv (e : UserEvent) (p : Page) :
  PanelInv p -> exists p', listener e p = (Normal tt, p') /\ PanelInv p'.
Proof.
  intros Hinv. destruct e as [value| |inInput inResults|key]; simpl listener.
  - unfold onInput, clearTimeout, setTimeout, bind, get, modify.
    eexists. split; [reflexivity|].
    apply (PanelInv_frame (p := p)); page_fields; auto;
      destruct (searchTimeout p); reflexivity || auto.
  - unfold onFocus. unfold bind at 1. unfold modify at 1.
    unfold bind at 1. unfold get at 1.
    assert (Hfocused : PanelInv (setInputFocused true p)).
    { apply (PanelInv_frame (p := p)); page_fields; auto. }
    destruct (truthy (trim (inputValue (setInputFocused true p)))).
    + now apply search_keeps_PanelInv.
    + eexists. split; [reflexivity | assumption].
  - unfold onClick. unfold bind at 1. unfold get at 1.
    destruct (negb inInput && negb _).
    + now apply hideResults_keeps_PanelInv.
    + eexists. split; [reflexivity | assumption].
  - destruct key; simpl onKeyDown.
    + destruct (hideResults_keeps_PanelInv Hinv) as [p' [Hrun Hinv']].
      unfold bind. rewrite Hrun. unfold modify. eexists. split; [reflexivity|].
      apply (PanelInv_frame (p := p')); page_fields; auto.
    + eexists. split; [reflexivity | assumption].
Qed.

Lemma fire_keeps_PanelInv (ready : list Timer) :
  forall p, PanelInv p -> PanelInv (fire ready p).
Proof.
  induction ready as [|timer rest IH]; intros p Hinv; simpl; [assumption|].
  apply IH.
  destruct (@search_keeps_PanelInv (pendingQuery timer)
              (setTimers (cancel (timerId timer) (timers p)) p)) as [p' [Hrun Hinv']].
  { apply (PanelInv_frame (p := p)); page_fields; auto. }
  now rewrite (runTask_normal _ _ Hrun).
Qed.

Lemma advanceTo_keeps_PanelInv (t : N) (p : Page) :
  PanelInv p -> PanelInv (advanceTo t p).
Proof.
  intros Hinv. unfold advanceTo.
  apply (PanelInv_frame (p := fire (filter (isDue t) (timers p)) p));
    page_fields; auto.
  now apply fire_keeps_PanelInv.
Qed.

(** [initializeSearch], written out: it completes, and either all its steps
    succeed and it installs the engine over the index it has fetched, or it
    logs the first failure and leaves the engine as it was. *)
Lemma initializeSearch_outcome (env : InitEnv) (p : Page) :
  initializeSearch env p =
  (Normal tt,
   match importFuse env with
   | Throw e => setConsole (console p ++ [LogError e]) p
   | Normal F =>
       let imported := setFuseClass (Some F) p in
       match fetchIndex env with
       | Throw e => setConsole (console p ++ [LogError e]) imported
       | Normal response =>
           if ok response then
             match json response with
             | Throw e => setConsole (console p ++ [LogError e]) imported
             | Normal index =>
                 let assigned := setSearchIndex index imported in
                 match lengthOf index with
                 | Throw e => setConsole (console p ++ [LogError e]) assigned
                 | Normal n =>
                     match F index options with
                     | Throw e =>
                         setConsole (console p ++ [LogIndexLoaded n; LogError e])
                                    assigned
                     | Normal engine =>
                         setConsole (console p ++ [LogIndexLoaded n; LogInitialized])
                                    (setFuse (Some engine) assigned)
                     end
                 end
             end
           else setConsole (console p ++ [LogError (HttpError (status response))])
                           imported
       end
   end).
Proof.
  unfold initializeSearch. run_script.
  destruct p as [F0 index0 engine pending value focused hidden content time table next log calls errors].
  destruct env as [[F|e1] [[st [index|e3]]|e2]]; cbn [importFuse fetchIndex json status];
    try reflexivity.
  - destruct (ok {| status := st; json := Normal index |}); cbn [negb];
      page_fields; cbv zeta; page_fields; [|reflexivity].
    destruct (lengthOf index) as [n|e4]; [|reflexivity].
    destruct (F index options) as [built|e5]; page_fields;
      rewrite <- app_assoc; reflexivity.
  - destruct (ok {| status := st; json := Throw e3 |}); reflexivity.
Qed.

Lemma initializeSearch_keeps_PanelInv (env : InitEnv) (p : Page) :
  PanelInv p ->
  exists p', initializeSearch env p = (Normal tt, p') /\ PanelInv p'.
Proof.
  intros Hinv. rewrite initializeSearch_outcome. eexists. split; [reflexivity|].
  destruct (importFuse env) as [F|e1];
    [destruct (fetchIndex env) as [response|e2];
     [destruct (ok response);
      [destruct (json response) as [index|e3];
       [destruct (lengthOf index) as [n|e4];
        [destruct (F index options) as [engine|e5]|]|]|]|]|];
    cbv zeta;
    apply (PanelInv_frame (p := p)); page_fields; auto;
    rewrite ?loggedQueries_app; simpl; rewrite ?app_nil_r; auto.
Qed.

Lemma reachable_PanelInv (p : Page) : Reachable p -> PanelInv p.
Proof.
  induction 1 as [|t e p _ IH|t p _ IH|t env p _ IH].
  - unfold PanelInv. simpl. repeat split; try constructor; congruence.
  - unfold userStep.
    destruct (listener_keeps_PanelInv e (advanceTo_keeps_PanelInv t IH)) as [p' [Hrun Hinv]].
    now rewrite (runTask_normal _ _ Hrun).
  - now apply advanceTo_keeps_PanelInv.
  - unfold initSettles.
    destruct (initializeSearch_keeps_PanelInv env (advanceTo_keeps_PanelInv t IH))
      as [p' [Hrun Hinv]].
    now rewrite (runTask_normal _ _ Hrun).
Qed.

(** X11.  The initialisation always completes, whatever its promises do, and
    touches neither the panel nor the timers nor the record of the calls;
    the variable [Fuse] holds the class as soon as the import is fulfilled.
    It constructs the engine only when the import and the fetch are
    fulfilled, the status is between 200 and 299, the body parses to a value
    other than [null] and the constructor, called on that value with the six
    weighted keys, threshold 0.3, scores, matches and a minimal match of 2,
    returns: it then logs the length it has read and the success.  An import
    or a fetch that is rejected, a status outside 200..299 and a body that
    does not parse leave the engine and the index as they were and log that
    one error.  A body that parses is assigned to the index whatever follows:
    on [null] the length cannot be read and a type error is logged, and when
    the constructor throws, its exception is logged after the length; in both
    cases the engine stays as it was. *)
Theorem initialisation_installs_the_engine_or_logs_one_error :
  forall (env : InitEnv) (p : Page),
    exists p',
      initializeSearch env p = (Normal tt, p') /\
      dropdownHidden p' = dropdownHidden p /\
      resultsContent p' = resultsContent p /\
      timers p' = timers p /\
      engineCalls p' = engineCalls p /\
      let unchanged e :=
        searchIndex p' = searchIndex p /\ fuse p' = fuse p /\
        console p' = console p ++ [LogError e] in
      match importFuse env with
      | Throw e => Fuse p' = Fuse p /\ unchanged e
      | Normal F =>
          Fuse p' = Some F /\
          match fetchIndex env with
          | Throw e => unchanged e
          | Normal response =>
              if ((200 <=? status response) && (status response <=? 299))%N then
                match json response with
                | Throw e => unchanged e
                | Normal index =>
                    let construct n :=
                      match F index
                              {| keys := [ {| name := "title"; weight := 0.3%Q |};
                                           {| name := "tags"; weight := 0.25%Q |};
                                           {| name := "description"; weight := 0.2%Q |};
                                           {| name := "keywords"; weight := 0.1%Q |};
                                           {| name := "app"; weight := 0.1%Q |};
                                           {| name := "category"; weight := 0.05%Q |} ];
                                 threshold := 0.3%Q;
                                 includeScore := true;
                                 includeMatches := true;
                                 minMatchCharLength := 2 |} with
                      | Normal engine =>
                          fuse p' = Some engine /\
                          console p' = console p ++ [LogIndexLoaded n; LogInitialized]
                      | Throw e =>
                          fuse p' = fuse p /\
                          console p' = console p ++ [LogIndexLoaded n; LogError e]
                      end in
                    searchIndex p' = index /\
                    match index with
                    | ParsedArray records => construct (Some (List.length records))
                    | ParsedOther n => construct n
                    | ParsedNull =>
                        fuse p' = fuse p /\
                        console p' = console p ++ [LogError TypeError]
                    end
                end
              else unchanged (HttpError (status response))
          end
      end.
Proof.
  intros env p. rewrite initializeSearch_outcome. eexists. split; [reflexivity|].
  change (((200 <=? ?x) && (?x <=? 299))%N) with (inRange 200%N 299%N x).
  destruct (importFuse env) as [F|e1];
    [destruct (fetchIndex env) as [response|e2];
     [change (inRange 200%N 299%N (status response)) with (ok response);
      destruct (ok response);
      [destruct (json response) as [index|e3];
       [destruct index as [records| |n]; cbn [lengthOf];
        try (unfold options;
             match goal with |- context [F ?i ?o] => destruct (F i o) as [built|e5] end)
       |]|]|]|];
    cbv zeta; page_fields; repeat split; reflexivity.
Qed.

(** X12.  In every state the page goes through, the results panel holds the
    placeholder of the template, the message that nothing was found, or
    between one and ten cards: never more than ten results, and never an
    empty list of cards. *)
Theorem panel_never_holds_more_than_ten_cards :
  forall p : Page,
    Reachable p ->
    match resultsContent p with
    | Some (Cards cards) => 1 <= List.length cards <= 10
    | _ => True
    end.
Proof.
  intros p Hreach. now destruct (reachable_PanelInv Hreach) as [Hcontent _].
Qed.

Lemma searchedPage_reachable : Reachable searchedPage.
Proof.
  unfold searchedPage. apply ReachIdle, ReachUser, ReachInit, ReachLoaded.
Qed.

Lemma searched_page_holds_ten_cards :
  Reachable searchedPage /\
  match resultsContent searchedPage with
  | Some (Cards cards) => 1 <= List.length cards <= 10
  | _ => True
  end.
Proof.
  split; [exact searchedPage_reachable|].
  apply (@panel_never_holds_more_than_ten_cards searchedPage).
  exact searchedPage_reachable.
Defined.

(** X13.  The results panel is on screen only when the engine has been
    constructed, and then it holds either the message that nothing was found
    or cards, never the placeholder of the template: before the index has
    loaded and after a failed load nothing is ever shown. *)
Theorem panel_is_shown_only_with_an_engine :
  forall p : Page,
    Reachable p ->
    resultsShown p = true ->
    isReady p = true /\
    (resultsContent p = Some NoResultsFound \/
     exists cards, resultsContent p = Some (Cards cards)).
Proof.
  intros p Hreach Hshown.
  destruct (reachable_PanelInv Hreach) as [_ [Hpanel _]].
  apply Hpanel. unfold resultsShown in Hshown.
  destruct (dropdownHidden p) as [[|]|]; try discriminate. reflexivity.
Qed.

Lemma searched_page_is_shown_with_an_engine :
  Reachable searchedPage /\
  resultsShown searchedPage = true /\
  isReady searchedPage = true /\
  (resultsContent searchedPage = Some NoResultsFound \/
   exists cards, resultsContent searchedPage = Some (Cards cards)).
Proof.
  split; [exact searchedPage_reachable|]. split; [reflexivity|].
  apply (@panel_is_shown_only_with_an_engine searchedPage).
  - exact searchedPage_reachable.
  - reflexivity.
Defined.

(** X14.  In every state the page goes through, the engine has been called
    with queries that are not blank only, every call of the engine is
    followed by one entry of results in the console, in the same order and
    with the same query, and no listener, timer or initialisation has let an
    exception escape. *)
Theorem engine_calls_are_never_blank_and_always_logged :
  forall p : Page,
    Reachable p ->
    Forall (fun query => truthy (trim query) = true) (engineCalls p) /\
    loggedQueries (console p) = engineCalls p /\
    uncaught p = [].
Proof.
  intros p Hreach.
  now destruct (reachable_PanelInv Hreach) as [_ [_ [Hcalls [Hlog Hnone]]]].
Qed.

Lemma searched_page_calls_are_logged :
  Reachable searchedPage /\
  Forall (fun query => truthy (trim query) = true) (engineCalls searchedPage) /\
  loggedQueries (console searchedPage) = engineCalls searchedPage /\
  uncaught searchedPage = [].
Proof.
  split; [exact searchedPage_reachable|].
  apply (@engine_calls_are_never_blank_and_always_logged searchedPage).
  exact searchedPage_reachable.
Defined.

Lemma hideResults_outcome (p : Page) :
  hideResults p =
  (Normal tt, match dropdownHidden p with
              | Some _ => setDropdownHidden (Some true) p
              | None => p
              end).
Proof. reflexivity. Qed.

Lemma onInput_outcome (value : jsstring) (p : Page) :
  onInput value p =
  (Normal tt,
   let table := match searchTimeout p with
                | Some id => cancel id (timers p)
                | None => timers p
                end in
   setSearchTimeout (Some (nextTimerId p))
     (setNextTimerId (S (nextTimerId p))
        (setTimers (table ++ [ {| timerId := nextTimerId p;
                                  due := (clock p + 300)%N;
                                  pendingQuery := value |} ])
           (setInputValue value p)))).
Proof.
  destruct p as [F index engine pending value0 focused hidden content time table next log calls errors].
  destruct pending; reflexivity.
Qed.

(** What a listener leaves of the engine and of the elements of the panel. *)
Lemma listener_keeps_engine (e : UserEvent) (p : Page) :
  exists p',
    listener e p = (Normal tt, p') /\
    fuse p' = fuse p /\ Fuse p' = Fuse p /\ searchIndex p' = searchIndex p.
Proof.
  destruct e as [value| |inInput inResults|key]; simpl listener.
  - rewrite onInput_outcome. eexists. split; [reflexivity|]. cbv zeta. page_fields. auto.
  - unfold onFocus. unfold bind at 1. unfold modify at 1.
    unfold bind at 1. unfold get at 1.
    destruct (truthy (trim (inputValue (setInputFocused true p)))).
    + rewrite search_outcome. page_fields.
      destruct (fuse p) as [engine|] eqn:Hfuse;
        [destruct (truthy (trim (inputValue p))); [destruct (hasPanel _)|]|];
        rewrite ?hideResults_outcome; page_fields;
        try destruct (dropdownHidden p);
        eexists; (split; [reflexivity|]); page_fields; auto.
    + eexists. split; [reflexivity|]. page_fields. auto.
  - unfold onClick. unfold bind at 1. unfold get at 1.
    destruct (negb inInput && negb _).
    + rewrite hideResults_outcome. destruct (dropdownHidden p);
        eexists; (split; [reflexivity|]); page_fields; auto.
    + eexists. split; [reflexivity|]. auto.
  - destruct key; simpl onKeyDown.
    + unfold bind. rewrite hideResults_outcome. unfold modify.
      destruct (dropdownHidden p); eexists; (split; [reflexivity|]); page_fields; auto.
    + eexists. split; [reflexivity|]. auto.
Qed.

Lemma fire_keeps_engine (ready : list Timer) :
  forall p,
    fuse (fire ready p) = fuse p /\ Fuse (fire ready p) = Fuse p /\
    searchIndex (fire ready p) = searchIndex p.
Proof.
  induction ready as [|timer rest IH]; intros p; simpl; [auto|].
  destruct (IH (runTask (search (pendingQuery timer))
                        (setTimers (cancel (timerId timer) (timers p)) p)))
    as [H1 [H2 H3]].
  rewrite H1, H2, H3. unfold runTask. rewrite search_outcome. page_fields.
  destruct (fuse p) as [engine|] eqn:Hfuse;
    [destruct (truthy (trim (pendingQuery timer))); [destruct (hasPanel _)|]|];
    rewrite ?hideResults_outcome; page_fields;
    try destruct (dropdownHidden p); page_fields; auto.
Qed.

Lemma userStep_keeps_engine (t : N) (e : UserEvent) (p : Page) :
  fuse (userStep t e p) = fuse p /\ Fuse (userStep t e p) = Fuse p /\
  searchIndex (userStep t e p) = searchIndex p.
Proof.
  unfold userStep.
  destruct (listener_keeps_engine e (advanceTo t p)) as [p' [Hrun [H1 [H2 H3]]]].
  rewrite (runTask_normal _ _ Hrun), H1, H2, H3.
  unfold advanceTo. page_fields. apply fire_keeps_engine.
Qed.

(** X15.  Nothing the user does and no timer constructs, replaces or
    discards the engine or the index: over any sequence of input, focus,
    click and key events, with the timers that fire in between, the page
    stays ready if it was ready and stays without an engine if it had
    none. *)
Theorem user_events_never_change_the_engine :
  forall (events : list (N * UserEvent)) (t : N) (p : Page),
    let p' := advanceTo t (runUser events p) in
    fuse p' = fuse p /\
    Fuse p' = Fuse p /\
    searchIndex p' = searchIndex p /\
    isReady p' = isReady p.
Proof.
  intros events t p. cbv zeta.
  assert (H : fuse (runUser events p) = fuse p /\ Fuse (runUser events p) = Fuse p /\
              searchIndex (runUser events p) = searchIndex p).
  { revert p. induction events as [|[t' e] rest IH]; intros p; simpl; [auto|].
    destruct (IH (userStep t' e p)) as [H1 [H2 H3]].
    destruct (userStep_keeps_engine t' e p) as [K1 [K2 K3]].
    rewrite H1, H2, H3. auto. }
  destruct H as [H1 [H2 H3]].
  destruct (fire_keeps_engine (filter (isDue t) (timers (runUser events p)))
                              (runUser events p)) as [K1 [K2 K3]].
  unfold isReady, advanceTo. page_fields. rewrite K1, K2, K3, H1, H2, H3. auto.
Qed.

Lemma keystroke_keeps_panel (t : N) (value : jsstring) (p : Page) :
  Forall (fun timer => (t < due timer)%N) (timers p) ->
  dropdownHidden (userStep t (Input value) p) = dropdownHidden p /\
  resultsContent (userStep t (Input value) p) = resultsContent p.
Proof.
  intros Hlate. unfold userStep. rewrite (advanceTo_idle p Hlate).
  simpl listener. unfold runTask. rewrite onInput_outcome. cbv zeta. page_fields.
  auto.
Qed.

(** The Escape key at a time when no timer is due: the panel is hidden, the
    input loses the focus, and the rest of the page stays. *)
Lemma escape_effect (t : N) (p : Page) :
  Forall (fun timer => (t < due timer)%N) (timers p) ->
  let p' := userStep t (KeyDown Escape) p in
  timers p' = timers p /\
  fuse p' = fuse p /\
  engineCalls p' = engineCalls p /\
  resultsContent p' = resultsContent p /\
  dropdownHidden p' = option_map (fun _ => true) (dropdownHidden p).
Proof.
  intros Hlate. cbv zeta. unfold userStep. rewrite (advanceTo_idle p Hlate).
  simpl listener. unfold onKeyDown, runTask, bind. rewrite hideResults_outcome.
  unfold modify. page_fields.
  destruct (dropdownHidden p) eqn:Hd; page_fields; rewrite ?Hd; auto.
Qed.

(** The one pending timer fires: its query runs. *)
Lemma pending_query_fires (T : N) (p : Page) (timer : Timer) :
  timers p = [timer] ->
  (due timer <= T)%N ->
  engineCalls (advanceTo T p) = engineCalls p ++ invokes p (pendingQuery timer) /\
  resultsShown (advanceTo T p) =
    (if isReady p && truthy (trim (pendingQuery timer))
     then (if hasPanel p then true else resultsShown p) else false).
Proof.
  intros Htable Hdue. rewrite (advanceTo_single p Htable Hdue).
  destruct (search_effect (pendingQuery timer) (setTimers [] p))
    as [p' [Hrun [_ [_ [_ [_ [_ [_ [_ [Hcalls [Hshown _]]]]]]]]]]].
  rewrite (runTask_normal _ _ Hrun).
  split; [exact Hcalls | exact Hshown].
Qed.

(** X16.  The Escape key hides the panel but does not cancel the query that
    is waiting for its timer: when the key is pressed less than 300ms after a
    keystroke, the timer of that keystroke is still pending afterwards, and
    when it fires the query runs as if the key had not been pressed, so that
    with an engine and a text that is not blank the panel is shown again. *)
Theorem escape_does_not_cancel_the_pending_query :
  forall (p : Page) (t t' T : N) (value : jsstring),
    Reachable p ->
    (clock p <= t)%N ->
    Forall (fun timer => (t < due timer)%N) (timers p) ->
    (t <= t' /\ t' < t + 300)%N ->
    (t + 300 <= T)%N ->
    let typed := userStep t (Input value) p in
    let escaped := userStep t' (KeyDown Escape) typed in
    let later := advanceTo T escaped in
    resultsShown escaped = false /\
    (exists timer, timers escaped = [timer] /\
                   pendingQuery timer = value /\ due timer = (t + 300)%N) /\
    engineCalls escaped = engineCalls p /\
    engineCalls later = engineCalls p ++ invokes p value /\
    resultsShown later = isReady p && truthy (trim value) && hasPanel p.
Proof.
  intros p t t' T value Hreach Hclock Hlate [Hle Hlt] HT typed escaped later.
  destruct (@keystroke_effect t value p (reachable_timersOk Hreach) Hlate Hclock)
    as [timer [Ht [Hd [Hq [Hs [Hc [He Hf]]]]]]].
  destruct (@keystroke_keeps_panel t value p Hlate) as [Hhidden Hcontent].
  fold typed in Ht, Hs, Hc, He, Hf, Hhidden, Hcontent.
  assert (Hlate' : Forall (fun timer => (t' < due timer)%N) (timers typed)).
  { rewrite Ht. repeat constructor. rewrite Hd. exact Hlt. }
  destruct (@escape_effect t' typed Hlate') as [Et [Ef [Ee [Ec Eh]]]].
  fold escaped in Et, Ef, Ee, Ec, Eh.
  assert (Hshown : resultsShown escaped = false).
  { unfold resultsShown. rewrite Eh. now destruct (dropdownHidden typed). }
  assert (Hready : isReady escaped = isReady p).
  { unfold isReady. now rewrite Ef, Hf. }
  assert (Hpanel : hasPanel escaped = hasPanel p).
  { unfold hasPanel. rewrite Ec, Eh, Hcontent, Hhidden.
    now destruct (dropdownHidden p). }
  assert (Hdue : (due timer <= T)%N) by (rewrite Hd; exact HT).
  assert (Htable : timers escaped = [timer]) by congruence.
  destruct (@pending_query_fires T escaped timer Htable Hdue) as [Lcalls Lshown].
  fold later in Lcalls, Lshown.
  split; [exact Hshown|].
  split; [exists timer; auto|].
  split; [congruence|].
  split.
  - rewrite Lcalls, Hq, Ee, He. unfold invokes. now rewrite Hready.
  - rewrite Lshown, Hq, Hready, Hpanel, Hshown.
    destruct (isReady p), (truthy (trim value)), (hasPanel p); reflexivity.
Qed.

Lemma escape_on_searched_page_does_not_cancel :
  let typed := userStep 2000 (Input (lit "guides")) searchedPage in
  let escaped := userStep 2100 (KeyDown Escape) typed in
  let later := advanceTo 2400 escaped in
  (clock searchedPage <= 2000)%N /\
  Forall (fun timer => (2000 < due timer)%N) (timers searchedPage) /\
  resultsShown escaped = false /\
  engineCalls later = engineCalls searchedPage ++ invokes searchedPage (lit "guides") /\
  resultsShown later
    = isReady searchedPage && truthy (trim (lit "guides")) && hasPanel searchedPage /\
  resultsShown later = true.
Proof.
  cbv zeta.
  assert (Hclock : (clock searchedPage <= 2000)%N) by (vm_compute; discriminate).
  assert (Hlate : Forall (fun timer => (2000 < due timer)%N) (timers searchedPage))
    by (vm_compute; constructor).
  assert (Hwindow : (2000 <= 2100 /\ 2100 < 2000 + 300)%N) by lia.
  assert (HT : (2000 + 300 <= 2400)%N) by lia.
  pose proof (@escape_does_not_cancel_the_pending_query searchedPage 2000 2100 2400
                (lit "guides") searchedPage_reachable Hclock Hlate Hwindow HT) as H.
  cbv zeta in H. destruct H as [Hshown [_ [_ [Hcalls Hlater]]]].
  repeat split; try assumption.
Defined.

(** The one pending timer fires: the table is empty afterwards. *)
Lemma pending_timer_is_consumed (T : N) (p : Page) (timer : Timer) :
  timers p = [timer] ->
  (due timer <= T)%N ->
  timers (advanceTo T p) = [] /\
  fuse (advanceTo T p) = fuse p /\
  clock (advanceTo T p) = N.max (clock p) T.
Proof.
  intros Htable Hdue. rewrite (advanceTo_single p Htable Hdue).
  destruct (search_effect (pendingQuery timer) (setTimers [] p))
    as [p' [Hrun [Ht [_ [_ [Hc [Hf _]]]]]]].
  rewrite (runTask_normal _ _ Hrun). page_fields. auto.
Qed.

(** Keystrokes that come 300ms or more apart: before each of them the timer
    of the one before has fired and run its query. *)
Lemma typing_apart (rest : list (N * jsstring)) :
  forall (p : Page) (t : N) (value : jsstring) (timer : Timer),
    timers p = [timer] ->
    due timer = (t + 300)%N ->
    pendingQuery timer = value ->
    clock p = t ->
    apart t rest ->
    exists timer',
      timers (runUser (typing rest) p) = [timer'] /\
      due timer' = (fst (last rest (t, value)) + 300)%N /\
      engineCalls (runUser (typing rest) p) ++ invokes p (pendingQuery timer')
        = engineCalls p ++ flat_map (invokes p) (value :: map snd rest) /\
      fuse (runUser (typing rest) p) = fuse p.
Proof.
  induction rest as [|[t' value'] rest IH];
    intros p t value timer Htable Hdue Hquery Hclock Hapart.
  - exists timer. simpl. rewrite Hquery, app_nil_r. auto.
  - destruct Hapart as [Hgap Hrest].
    assert (Hfire : (due timer <= t')%N) by (rewrite Hdue; exact Hgap).
    destruct (@pending_timer_is_consumed t' p timer Htable Hfire) as [Ft [Ff Fc]].
    destruct (@pending_query_fires t' p timer Htable Hfire) as [Fcalls _].
    assert (Hok : timersOk (advanceTo t' p)) by (left; exact Ft).
    destruct (onInput_effect value' Hok) as [p1 [Hrun [Ht [Hs [Hc [Hf He]]]]]].
    assert (Hstep : userStep t' (Input value') p = p1).
    { unfold userStep. simpl listener. now apply runTask_normal. }
    assert (Hclock1 : clock p1 = t').
    { rewrite Hc, Fc, Hclock. apply N.max_r. lia. }
    destruct (IH p1 t' value' _ Ht) as [timer' [Ht' [Hd' [Hcalls' Hf']]]];
      [cbn [due]; now rewrite Fc, Hclock, N.max_r by lia | reflexivity
       | exact Hclock1 | exact Hrest |].
    exists timer'. simpl typing. simpl runUser. rewrite Hstep, last_cons.
    assert (Hinv : forall q, invokes p1 q = invokes p q).
    { intros q. unfold invokes, isReady. now rewrite Hf, Ff. }
    split; [exact Ht'|]. split; [exact Hd'|]. split; [|congruence].
    rewrite <- (Hinv (pendingQuery timer')), Hcalls'. rewrite He, Fcalls, Hquery.
    simpl flat_map. rewrite <- app_assoc. rewrite (Hinv value').
    do 3 f_equal. apply flat_map_ext. exact Hinv.
Qed.

(** X17.  Keystrokes that come 300ms or more apart are not merged: each of
    them has its own query run, in the order of typing, so that once 300ms
    have passed after the last one the engine has been called for every text
    that is not blank, if it has been constructed, and no timer is left. *)
Theorem keystrokes_apart_each_run_their_query :
  forall (p : Page) (t1 : N) (v1 : jsstring) (rest : list (N * jsstring)) (T : N),
    Reachable p ->
    (clock p <= t1)%N ->
    Forall (fun timer => (t1 < due timer)%N) (timers p) ->
    apart t1 rest ->
    (fst (last rest (t1, v1)) + 300 <= T)%N ->
    let settled := advanceTo T (runUser (typing ((t1, v1) :: rest)) p) in
    timers settled = [] /\
    engineCalls settled = engineCalls p ++ flat_map (invokes p) (v1 :: map snd rest).
Proof.
  intros p t1 v1 rest T Hreach Hclock Hlate Hapart HT settled.
  destruct (@keystroke_effect t1 v1 p (reachable_timersOk Hreach) Hlate Hclock)
    as [timer1 [Ht [Hd [Hq [Hs [Hc [He Hf]]]]]]].
  destruct (typing_apart rest (userStep t1 (Input v1) p) Ht Hd Hq Hc Hapart)
    as [timer [Ht' [Hd' [Hcalls Hf']]]].
  change (runUser (typing rest) (userStep t1 (Input v1) p))
    with (runUser (typing ((t1, v1) :: rest)) p) in *.
  assert (Hdue : (due timer <= T)%N) by (rewrite Hd'; exact HT).
  destruct (@pending_timer_is_consumed T _ timer Ht' Hdue) as [Ft _].
  destruct (@pending_query_fires T _ timer Ht' Hdue) as [Fcalls _].
  assert (Hinv : forall (q : Page) (v : jsstring), fuse q = fuse p -> invokes q v = invokes p v).
  { intros q v Hq'. unfold invokes, isReady. now rewrite Hq'. }
  split; [exact Ft|].
  unfold settled. rewrite Fcalls.
  rewrite (Hinv _ (pendingQuery timer)) by congruence.
  rewrite (Hinv _ (pendingQuery timer)) in Hcalls by exact Hf.
  rewrite Hcalls, He.
  f_equal. simpl. f_equal; [now apply Hinv|].
  apply flat_map_ext. intros v. now apply Hinv.
Qed.

Lemma two_keystrokes_apart_run_two_queries :
  (clock searchedPage <= 2000)%N /\
  Forall (fun timer => (2000 < due timer)%N) (timers searchedPage) /\
  apart 2000 [(2400%N, lit "gui")] /\
  timers (advanceTo 3000
            (runUser (typing [(2000%N, lit "gu"); (2400%N, lit "gui")]) searchedPage)) = [] /\
  engineCalls (advanceTo 3000
                 (runUser (typing [(2000%N, lit "gu"); (2400%N, lit "gui")]) searchedPage))
    = engineCalls searchedPage
      ++ flat_map (invokes searchedPage) [lit "gu"; lit "gui"].
Proof.
  assert (Hclock : (clock searchedPage <= 2000)%N) by (vm_compute; discriminate).
  assert (Hlate : Forall (fun timer => (2000 < due timer)%N) (timers searchedPage))
    by (vm_compute; constructor).
  assert (Hapart : apart 2000 [(2400%N, lit "gui")]) by (simpl; lia).
  assert (HT : (fst (last [(2400%N, lit "gui")] (2000%N, lit "gu")) + 300 <= 3000)%N)
    by (simpl; lia).
  pose proof (@keystrokes_apart_each_run_their_query searchedPage 2000 (lit "gu")
                [(2400%N, lit "gui")] 3000
                searchedPage_reachable Hclock Hlate Hapart HT) as H.
  cbv zeta in H. destruct H as [Htimers Hcalls].
  repeat split; try assumption; lia.
Defined.
